(** * Scoreboard: the state container, the URL codec and the score rules

    A shallow embedding of the scoreboard's game logic:
    - [games.js]: the Pooch score rule and the cribbage position mapping;
    - [url-manager.js]: [serializeToURL] and [deserializeFromURL];
    - the main script: the [GameState] class, the global [playerIdCounter]
      and [init];
    - [cribbage-board.js]: the hole a peg is drawn in.

    Modelling conventions.
    - JavaScript numbers are modelled as [Z]: every number the modelled code
      handles is an integer (scores, counters, round numbers), and the model
      is exact inside the safe-integer range of a double.  [NaN], where the
      code can produce it ([parseInt]), is [None].  The setting
      [numberOfRounds] is the one field the page itself fills with something
      else: [saveSettings] stores the [NaN] that [parseInt] returns for an
      emptied field, and a stored [NaN] is read back from the storage as
      [null]; the field is a [JS.number], an integer, [NaN] or [null].
    - JavaScript strings are modelled as [string], a sequence of bytes: the
      UTF-8 encoding of the text, which is what [URLSearchParams] writes and
      reads.  The strings of the model are the well-formed ones (a string
      with an unpaired surrogate has no UTF-8 encoding).  [trim] and
      [parseInt] strip the code points of [WhiteSpace] and [LineTerminator],
      recognised by their encodings of one, two and three bytes.
    - [null] and [undefined] are [None]; an object whose fields may be absent
      (the argument of [Object.assign], a parsed JSON blob) is a record of
      options.
    - Mutation in place is explicit state passing: a method of [GameState]
      is a function on the state object, and on [World], the state object
      with the global id counter, when it reads or writes the counter.
      Observers, timers and the two debounced writes ([notify],
      [persistState]) do not change the five state fields and are left
      out. *)

From Stdlib Require Import ZArith String Ascii List Lia Decimal DecimalString DecimalZ.
From stdpp Require Import gmap strings list.

Open Scope Z_scope.

(** ** JavaScript primitives used by the code *)

Module JS.

(** White space: the code points of [WhiteSpace] and [LineTerminator], which
    [String.prototype.trim] strips and [parseInt] skips, by their UTF-8
    encodings.  One byte: U+0009 to U+000D and U+0020. *)
Definition is_white_space1 (c : ascii) : bool :=
  let n := N_of_ascii c in
  ((9 <=? n)%N && (n <=? 13)%N) || (n =? 32)%N.

(** Two bytes: U+00A0 is [C2 A0]. *)
Definition is_white_space2 (c1 c2 : ascii) : bool :=
  ((N_of_ascii c1 =? 194) && (N_of_ascii c2 =? 160))%N.

(** Three bytes: U+1680 is [E1 9A 80]; U+2000 to U+200A, U+2028, U+2029 and
    U+202F are [E2 80 80] to [E2 80 8A], [E2 80 A8], [E2 80 A9] and
    [E2 80 AF]; U+205F is [E2 81 9F]; U+3000 is [E3 80 80]; U+FEFF is
    [EF BB BF]. *)
Definition is_white_space3 (c1 c2 c3 : ascii) : bool :=
  let n1 := N_of_ascii c1 in
  let n2 := N_of_ascii c2 in
  let n3 := N_of_ascii c3 in
  (((n1 =? 225) && (n2 =? 154) && (n3 =? 128))
   || ((n1 =? 226) && (n2 =? 128)
       && (((128 <=? n3) && (n3 <=? 138)) || (n3 =? 168) || (n3 =? 169) || (n3 =? 175)))
   || ((n1 =? 226) && (n2 =? 129) && (n3 =? 159))
   || ((n1 =? 227) && (n2 =? 128) && (n3 =? 128))
   || ((n1 =? 239) && (n2 =? 187) && (n3 =? 191)))%N.

(** [s.trimStart()]: the white space code points at the start are dropped. *)
Fixpoint trimStart (s : string) : string :=
  match s with
  | EmptyString => s
  | String c1 r1 =>
      if is_white_space1 c1 then trimStart r1
      else
        match r1 with
        | EmptyString => s
        | String c2 r2 =>
            if is_white_space2 c1 c2 then trimStart r2
            else
              match r2 with
              | EmptyString => s
              | String c3 r3 => if is_white_space3 c1 c2 c3 then trimStart r3 else s
              end
        end
  end.

(** A string of white space only. *)
Definition is_blank (s : string) : bool := String.eqb (trimStart s) "".

(** [s.trimEnd()]: the string up to the white space it ends in. *)
Fixpoint trimEnd (s : string) : string :=
  match s with
  | EmptyString => EmptyString
  | String c s' => if is_blank s then EmptyString else String c (trimEnd s')
  end.

(** [s.trim()] *)
Definition trim (s : string) : string := trimEnd (trimStart s).

(** [s.split(sep)] for a one-character separator: never an empty list,
    [''.split(',')] is [['']]. *)
Fixpoint split (sep : ascii) (s : string) : list string :=
  match s with
  | EmptyString => [EmptyString]
  | String c s' =>
      if Ascii.eqb c sep then EmptyString :: split sep s'
      else match split sep s' with
           | h :: t => String c h :: t
           | [] => [String c EmptyString]
           end
  end.

(** [a.join(sep)] on an array of strings. *)
Fixpoint join (sep : string) (l : list string) : string :=
  match l with
  | [] => EmptyString
  | [x] => x
  | x :: rest => x +:+ sep +:+ join sep rest
  end.

(** Truthiness of a string, of a number and of a possibly-null string. *)
Definition truthy_string (s : string) : bool := negb (String.eqb s "").
Definition truthy_number (n : Z) : bool := negb (n =? 0).

(** [x || d] where [x] is a string or [null]. *)
Definition or_string (x : option string) (d : string) : string :=
  match x with
  | Some s => if truthy_string s then s else d
  | None => d
  end.

(** [x || d] where [x] is a number or [NaN]. *)
Definition or_number (x : option Z) (d : Z) : Z :=
  match x with
  | Some n => if truthy_number n then n else d
  | None => d
  end.

(** [String(x)] of a string that may be [null] or [undefined]. *)
Definition string_of_nullable (x : option string) : string :=
  match x with Some s => s | None => "null" end.
Definition string_of_undefinable (x : option string) : string :=
  match x with Some s => s | None => "undefined" end.

(** [String(n)] of an integer. *)
Definition string_of_number (n : Z) : string :=
  NilZero.string_of_int (Z.to_int n).

Definition string_of_boolean (b : bool) : string :=
  if b then "true" else "false".

(** The values the setting [numberOfRounds] takes: an integer, [NaN] or
    [null]. *)
Inductive number :=
| Num (n : Z)
| NaN
| Null.

(** The result of [parseInt] as such a value. *)
Definition number_of_parsed (x : option Z) : number :=
  match x with
  | Some n => Num n
  | None => NaN
  end.

(** [String(x)] of such a value, as [params.set] converts it. *)
Definition string_of_value (x : number) : string :=
  match x with
  | Num n => string_of_number n
  | NaN => "NaN"
  | Null => "null"
  end.

(** The value of a digit in a radix up to 16. *)
Definition digit_value (c : ascii) : option Z :=
  let n := Z.of_N (N_of_ascii c) in
  if (48 <=? n) && (n <=? 57) then Some (n - 48)
  else if (97 <=? n) && (n <=? 102) then Some (n - 87)
  else if (65 <=? n) && (n <=? 70) then Some (n - 55)
  else None.

Definition radix_digit (radix : Z) (c : ascii) : option Z :=
  match digit_value c with
  | Some d => if d <? radix then Some d else None
  | None => None
  end.

(** The value of the longest prefix of digits. *)
Fixpoint digits_acc (radix : Z) (s : string) (acc : Z) : Z :=
  match s with
  | EmptyString => acc
  | String c s' =>
      match radix_digit radix c with
      | Some d => digits_acc radix s' (acc * radix + d)
      | None => acc
      end
  end.

Definition parse_digits (radix : Z) (s : string) : option Z :=
  match s with
  | EmptyString => None
  | String c _ =>
      match radix_digit radix c with
      | Some _ => Some (digits_acc radix s 0)
      | None => None
      end
  end.

(** [parseInt(s)] without a radix: leading white space, a sign, a [0x]
    prefix, then the longest prefix of digits; [NaN] when there is none. *)
Definition strip_sign (s : string) : Z * string :=
  match s with
  | String c r =>
      if Ascii.eqb c "-" then (-1, r)
      else if Ascii.eqb c "+" then (1, r)
      else (1, s)
  | EmptyString => (1, s)
  end.

Definition strip_radix_prefix (s : string) : Z * string :=
  match s with
  | String c1 (String c2 r) =>
      if Ascii.eqb c1 "0" && (Ascii.eqb c2 "x" || Ascii.eqb c2 "X") then (16, r)
      else (10, s)
  | _ => (10, s)
  end.

Definition parseInt (s : string) : option Z :=
  let '(sign, s2) := strip_sign (trimStart s) in
  let '(radix, s3) := strip_radix_prefix s2 in
  match parse_digits radix s3 with
  | Some n => Some (sign * n)
  | None => None
  end.

End JS.

(** ** The [URLSearchParams] interface (application/x-www-form-urlencoded) *)

Module URLSearchParams.

(** A parameter list: names with their values, in order. *)
Definition t := list (string * string).

Definition is_alphanumeric (c : ascii) : bool :=
  let n := N_of_ascii c in
  (((48 <=? n) && (n <=? 57)) || ((65 <=? n) && (n <=? 90))
   || ((97 <=? n) && (n <=? 122)))%N.

(** Bytes the serializer leaves as they are: alphanumerics and [*-._]. *)
Definition is_unreserved (c : ascii) : bool :=
  is_alphanumeric c
  || Ascii.eqb c "*" || Ascii.eqb c "-" || Ascii.eqb c "." || Ascii.eqb c "_".

Definition hex_digit (n : N) : ascii :=
  if (n <? 10)%N then ascii_of_N (48 + n) else ascii_of_N (55 + n).

Definition hex_value (c : ascii) : option N :=
  match JS.digit_value c with
  | Some d => Some (Z.to_N d)
  | None => None
  end.

(** The urlencoded byte serializer: a space becomes [+], an unreserved byte
    stays, any other byte becomes [%XY]. *)
Fixpoint byte_serialize (s : string) : string :=
  match s with
  | EmptyString => EmptyString
  | String c s' =>
      if Ascii.eqb c " " then String "+" (byte_serialize s')
      else if is_unreserved c then String c (byte_serialize s')
      else
        let n := N_of_ascii c in
        String "%" (String (hex_digit (n / 16)) (String (hex_digit (n mod 16))
                                                   (byte_serialize s')))
  end.

(** The urlencoded serializer: [name=value] joined with [&]. *)
Definition serialize_pair (p : string * string) : string :=
  byte_serialize (fst p) +:+ "=" +:+ byte_serialize (snd p).

Definition serialize (l : t) : string :=
  JS.join "&" (map serialize_pair l).

Fixpoint plus_to_space (s : string) : string :=
  match s with
  | EmptyString => EmptyString
  | String c s' => String (if Ascii.eqb c "+" then " "%char else c) (plus_to_space s')
  end.

(** Percent-decoding: [%XY] with two hex digits is one byte, any other
    [%] stays. *)
Fixpoint percent_decode (s : string) : string :=
  match s with
  | EmptyString => EmptyString
  | String c s' =>
      if Ascii.eqb c "%" then
        match s' with
        | String h (String l r) =>
            match hex_value h, hex_value l with
            | Some a, Some b => String (ascii_of_N (16 * a + b)) (percent_decode r)
            | _, _ => String c (percent_decode s')
            end
        | _ => String c (percent_decode s')
        end
      else String c (percent_decode s')
  end.

(** The part before the first [=] and the part after it; no [=]: the whole
    sequence is the name and the value is empty. *)
Fixpoint split_pair (s : string) : string * string :=
  match s with
  | EmptyString => (EmptyString, EmptyString)
  | String c s' =>
      if Ascii.eqb c "=" then (EmptyString, s')
      else let '(n, v) := split_pair s' in (String c n, v)
  end.

Definition decode_component (s : string) : string :=
  percent_decode (plus_to_space s).

(** The urlencoded parser: split on [&], skip the empty sequences. *)
Definition parse (input : string) : t :=
  omap (fun seq =>
          if JS.truthy_string seq then
            let '(n, v) := split_pair seq in
            Some (decode_component n, decode_component v)
          else None)
       (JS.split "&" input).

(** [new URLSearchParams(init)]: one leading [?] is dropped. *)
Definition strip_question (init : string) : string :=
  match init with
  | String c r => if Ascii.eqb c "?" then r else init
  | EmptyString => init
  end.

Definition new (init : string) : t := parse (strip_question init).

(** [params.get(name)]: the first value under that name, or [null]. *)
Fixpoint get (name : string) (l : t) : option string :=
  match l with
  | [] => None
  | (n, v) :: rest => if String.eqb n name then Some v else get name rest
  end.

(** [params.set(name, value)]: the first pair under that name gets the
    value and the others are removed; without one, the pair is appended. *)
Fixpoint set (name value : string) (l : t) : t :=
  match l with
  | [] => [(name, value)]
  | (n, v) :: rest =>
      if String.eqb n name
      then (n, value) :: filter (fun p => negb (String.eqb (fst p) name)) rest
      else (n, v) :: set name value rest
  end.

(** [params.toString()] *)
Definition toString (l : t) : string := serialize l.

End URLSearchParams.

(** ** [games.js]: the game presets *)

Module Games.

(** [GAME_PRESETS.pooch.logic.calculateScore] *)
Definition calculateScore (bid tricks : Z) : Z :=
  if bid =? tricks then bid + 10
  else - Z.abs (bid - tricks) * 2.

(** [GAME_PRESETS.pooch.roundCards] *)
Definition roundCards : list Z := [10; 9; 8; 7; 6; 5; 4; 3; 2; 1].

(** [roundCards[round - 1] || 10] *)
Definition maxCards (round : Z) : Z :=
  let i := round - 1 in
  JS.or_number (if i <? 0 then None else roundCards !! Z.to_nat i) 10.

(** [validateBid] and [validateTricks] return the range [{min, max}]. *)
Definition validateBid (round totalBids playerCount : Z) : Z * Z :=
  (0, maxCards round).
Definition validateTricks (round : Z) : Z * Z := (0, maxCards round).

(** [GAME_PRESETS.cribbage.logic.calculatePosition] *)
Definition calculatePosition (score : Z) : Z := Z.min score 121.

(** [GAME_PRESETS.cribbage.logic.checkWin] *)
Definition checkWin (score : Z) : bool := score >=? 121.

End Games.

(** ** The data model *)

(** One round of a player's [roundData]: [{bid?, tricks?, score?}]. *)
Record RoundEntry := mkRoundEntry {
  rd_bid : option Z;
  rd_tricks : option Z;
  rd_score : option Z
}.

Definition empty_entry : RoundEntry := mkRoundEntry None None None.

(** [Object.assign(target, data)] on round entries. *)
Definition assign_entry (target data : RoundEntry) : RoundEntry :=
  mkRoundEntry
    (match rd_bid data with Some v => Some v | None => rd_bid target end)
    (match rd_tricks data with Some v => Some v | None => rd_tricks target end)
    (match rd_score data with Some v => Some v | None => rd_score target end).

Record Player := mkPlayer {
  id : string;
  name : string;
  score : Z;
  position : Z;
  roundData : gmap Z RoundEntry
}.

(** The [updates] argument of [updatePlayer]: any subset of the fields. *)
Record PlayerUpdates := mkPlayerUpdates {
  upd_id : option string;
  upd_name : option string;
  upd_score : option Z;
  upd_position : option Z;
  upd_roundData : option (gmap Z RoundEntry)
}.

Record Settings := mkSettings {
  colorTheme : string;
  showRounds : bool;
  numberOfRounds : JS.number;
  showBids : bool;
  showTricks : bool;
  showDeal : bool
}.

(** A settings object with some fields absent. *)
Record PartialSettings := mkPartialSettings {
  p_colorTheme : option string;
  p_showRounds : option bool;
  p_numberOfRounds : option JS.number;
  p_showBids : option bool;
  p_showTricks : option bool;
  p_showDeal : option bool
}.

(** The five state fields of a [GameState] object.  The code never puts
    anything in [rounds]; its elements are taken to be numbers. *)
Record GameState := mkGameState {
  players : list Player;
  gameMode : string;
  settings : Settings;
  currentRound : Z;
  rounds : list Z
}.

(** The argument of [fromJSON]: a parsed object, any field may be absent. *)
Record Snapshot := mkSnapshot {
  s_players : option (list Player);
  s_gameMode : option string;
  s_settings : option PartialSettings;
  s_currentRound : option Z;
  s_rounds : option (list Z)
}.

(** The state object together with the module-level [playerIdCounter]. *)
Record World := mkWorld {
  state : GameState;
  playerIdCounter : Z
}.

(** Field assignments [player.f = v]. *)
Definition set_score (v : Z) (p : Player) : Player :=
  mkPlayer (id p) (name p) v (position p) (roundData p).
Definition set_position (v : Z) (p : Player) : Player :=
  mkPlayer (id p) (name p) (score p) v (roundData p).
Definition set_roundData (v : gmap Z RoundEntry) (p : Player) : Player :=
  mkPlayer (id p) (name p) (score p) (position p) v.

Definition set_players (v : list Player) (s : GameState) : GameState :=
  mkGameState v (gameMode s) (settings s) (currentRound s) (rounds s).
Definition set_settings (v : Settings) (s : GameState) : GameState :=
  mkGameState (players s) (gameMode s) v (currentRound s) (rounds s).

(** [Object.assign(player, updates)] *)
Definition assign_player (p : Player) (u : PlayerUpdates) : Player :=
  mkPlayer (default (id p) (upd_id u)) (default (name p) (upd_name u))
           (default (score p) (upd_score u)) (default (position p) (upd_position u))
           (default (roundData p) (upd_roundData u)).

(** [Object.assign(settings, newSettings)] and [{...settings, ...data}] *)
Definition assign_settings (t : Settings) (u : PartialSettings) : Settings :=
  mkSettings (default (colorTheme t) (p_colorTheme u))
             (default (showRounds t) (p_showRounds u))
             (default (numberOfRounds t) (p_numberOfRounds u))
             (default (showBids t) (p_showBids u))
             (default (showTricks t) (p_showTricks u))
             (default (showDeal t) (p_showDeal u)).

(** A settings object seen as one with all its fields present. *)
Definition all_settings (t : Settings) : PartialSettings :=
  mkPartialSettings (Some (colorTheme t)) (Some (showRounds t))
                    (Some (numberOfRounds t)) (Some (showBids t))
                    (Some (showTricks t)) (Some (showDeal t)).

(** [players.find(p => p.id === playerId)] *)
Definition find_player (playerId : string) (ps : list Player) : option Player :=
  List.find (fun p => String.eqb (id p) playerId) ps.

(** The player [find] returns is an element of the array: changing it
    changes the array in place, at the first match. *)
Fixpoint modify_player (playerId : string) (f : Player -> Player)
    (ps : list Player) : list Player :=
  match ps with
  | [] => []
  | p :: rest =>
      if String.eqb (id p) playerId then f p :: rest
      else p :: modify_player playerId f rest
  end.

(** ** The [GameState] class *)

(** The fields the constructor sets. *)
Definition default_settings : Settings :=
  mkSettings "purple" true (JS.Num 10) true true true.

Definition new_GameState : GameState :=
  mkGameState [] "custom" default_settings 1 [].

(** The page's initial world: [gameState = new GameState()] and
    [playerIdCounter = 0]. *)
Definition initial_world : World := mkWorld new_GameState 0.

Definition addPlayer (name : option string) (w : World) : World * Player :=
  let s := state w in
  let playerName :=
    JS.or_string name
      ("Player " +:+ JS.string_of_number (Z.of_nat (length (players s)) + 1)) in
  let player :=
    mkPlayer ("player_" +:+ JS.string_of_number (playerIdCounter w))
             playerName 0 0 ∅ in
  (mkWorld (set_players (players s ++ [player]) s) (playerIdCounter w + 1), player).

Definition removePlayer (playerId : string) (s : GameState) : GameState :=
  set_players
    (List.filter (fun p => negb (String.eqb (id p) playerId)) (players s)) s.

Definition updatePlayer (playerId : string) (updates : PlayerUpdates)
    (s : GameState) : GameState :=
  set_players (modify_player playerId (fun p => assign_player p updates) (players s)) s.

Definition updatePlayerScore (playerId : string) (delta : Z)
    (s : GameState) : GameState :=
  set_players
    (modify_player playerId
       (fun p =>
          let p1 := set_score (score p + delta) p in
          let p2 := if score p1 <? 0 then set_score 0 p1 else p1 in
          if String.eqb (gameMode s) "cribbage" then set_position (score p2) p2
          else p2)
       (players s)) s.

Definition setPlayerScore (playerId : string) (new_score : Z)
    (s : GameState) : GameState :=
  set_players
    (modify_player playerId
       (fun p =>
          let p1 := set_score (Z.max 0 new_score) p in
          if String.eqb (gameMode s) "cribbage" then set_position (score p1) p1
          else p1)
       (players s)) s.

Definition setGameMode (mode : string) (s : GameState) : GameState :=
  mkGameState (map (set_roundData ∅) (players s)) mode (settings s) 1 [].

Definition updateSettings (newSettings : PartialSettings)
    (s : GameState) : GameState :=
  set_settings (assign_settings (settings s) newSettings) s.

Definition updateRoundData (playerId : string) (round : Z) (data : RoundEntry)
    (s : GameState) : GameState :=
  set_players
    (modify_player playerId
       (fun p =>
          let existing := default empty_entry (roundData p !! round) in
          set_roundData (<[round := assign_entry existing data]> (roundData p)) p)
       (players s)) s.

Definition resetGame (s : GameState) : GameState :=
  mkGameState
    (map (fun p => set_roundData ∅ (set_position 0 (set_score 0 p))) (players s))
    (gameMode s) (settings s) 1 [].

(** An object that has the five state fields, as [fromJSON] reads it. *)
Definition snapshot_of (s : GameState) : Snapshot :=
  mkSnapshot (Some (players s)) (Some (gameMode s))
             (Some (all_settings (settings s)))
             (Some (currentRound s)) (Some (rounds s)).

Definition toJSON (s : GameState) : Snapshot := snapshot_of s.

(** [parseInt(player.id.split('_')[1])] *)
Definition id_number (playerId : string) : option Z :=
  JS.parseInt (JS.string_of_undefinable (JS.split "_" playerId !! 1%nat)).

(** The loop that moves the counter past the ids of the players. *)
Definition bump_counter (counter : Z) (p : Player) : Z :=
  match id_number (id p) with
  | Some idNum => if idNum >=? counter then idNum + 1 else counter
  | None => counter
  end.

Definition fromJSON (data : Snapshot) (w : World) : World :=
  let s := state w in
  let players1 := default (players s) (s_players data) in
  let gameMode1 :=
    match s_gameMode data with
    | Some m => if JS.truthy_string m then m else gameMode s
    | None => gameMode s
    end in
  let settings1 :=
    match s_settings data with
    | Some d => assign_settings (settings s) d
    | None => settings s
    end in
  let currentRound1 :=
    match s_currentRound data with
    | Some r => if JS.truthy_number r then r else currentRound s
    | None => currentRound s
    end in
  let rounds1 := default (rounds s) (s_rounds data) in
  mkWorld (mkGameState players1 gameMode1 settings1 currentRound1 rounds1)
          (fold_left bump_counter players1 (playerIdCounter w)).

(** The mutating methods as operations, and runs of them. *)
Inductive Op :=
| OpAddPlayer (name : option string)
| OpRemovePlayer (playerId : string)
| OpUpdatePlayer (playerId : string) (updates : PlayerUpdates)
| OpUpdatePlayerScore (playerId : string) (delta : Z)
| OpSetPlayerScore (playerId : string) (new_score : Z)
| OpSetGameMode (mode : string)
| OpUpdateSettings (newSettings : PartialSettings)
| OpUpdateRoundData (playerId : string) (round : Z) (data : RoundEntry)
| OpResetGame
| OpFromJSON (data : Snapshot).

(** A method that does not touch the id counter. *)
Definition on_state (f : GameState -> GameState) (w : World) : World :=
  mkWorld (f (state w)) (playerIdCounter w).

Definition step (op : Op) (w : World) : World :=
  match op with
  | OpAddPlayer name => fst (addPlayer name w)
  | OpRemovePlayer playerId => on_state (removePlayer playerId) w
  | OpUpdatePlayer playerId updates => on_state (updatePlayer playerId updates) w
  | OpUpdatePlayerScore playerId delta => on_state (updatePlayerScore playerId delta) w
  | OpSetPlayerScore playerId new_score => on_state (setPlayerScore playerId new_score) w
  | OpSetGameMode mode => on_state (setGameMode mode) w
  | OpUpdateSettings newSettings => on_state (updateSettings newSettings) w
  | OpUpdateRoundData playerId round data => on_state (updateRoundData playerId round data) w
  | OpResetGame => on_state resetGame w
  | OpFromJSON data => fromJSON data w
  end.

Definition run (ops : list Op) (w : World) : World :=
  fold_left (fun w op => step op w) ops w.

(** ** [handlePlayerContainerChange]: a bid or a tricks input of the Pooch table

    The handler writes the entered value into the player's entry of that
    round (a new entry when there is none), and once the entry has both a bid
    and tricks it stores the round's score and assigns the sum of the
    player's round scores to [player.score]; [updateRoundData] then merges the
    entry into [roundData].  [None] is a [TypeError]: the player is not found,
    or a score is due in a mode whose preset has no [calculateScore] (the
    inputs exist in the Pooch table only). *)
Definition sum_round_scores (m : gmap Z RoundEntry) : Z :=
  map_fold (fun _ rd sum => sum + JS.or_number (rd_score rd) 0) 0 m.

Definition handlePlayerContainerChange (playerId : string) (round : Z)
    (isBid : bool) (value : Z) (s : GameState) : option GameState :=
  match find_player playerId (players s) with
  | None => None
  | Some player =>
      let rd0 := default empty_entry (roundData player !! round) in
      let rd1 :=
        if isBid then mkRoundEntry (Some value) (rd_tricks rd0) (rd_score rd0)
        else mkRoundEntry (rd_bid rd0) (Some value) (rd_score rd0) in
      match rd_bid rd1, rd_tricks rd1 with
      | Some b, Some t =>
          if String.eqb (gameMode s) "pooch" then
            let rd2 := mkRoundEntry (Some b) (Some t) (Some (Games.calculateScore b t)) in
            let m := <[round := rd2]> (roundData player) in
            Some (set_players
                    (modify_player playerId
                       (fun p => set_score (sum_round_scores m) (set_roundData m p))
                       (players s)) s)
          else None
      | _, _ => Some (updateRoundData playerId round rd1 s)
      end
  end.

(** ** [cribbage-board.js]: the hole a player's pegs are drawn in,
    [Math.min(player.position || 0, 121)] *)
Definition peg_position (p : Player) : Z :=
  Z.min (JS.or_number (Some (position p)) 0) 121.

(** ** [url-manager.js] *)

Definition serializeToURL (gs : GameState) : string :=
  let params : URLSearchParams.t := [] in
  let params := URLSearchParams.set "game" (gameMode gs) params in
  let params :=
    if (0 <? length (players gs))%nat
    then URLSearchParams.set "players" (JS.join "," (map name (players gs))) params
    else params in
  let params := URLSearchParams.set "theme" (colorTheme (settings gs)) params in
  let params := URLSearchParams.set "showRounds"
                  (JS.string_of_boolean (showRounds (settings gs))) params in
  let params := URLSearchParams.set "numRounds"
                  (JS.string_of_value (numberOfRounds (settings gs))) params in
  let params := URLSearchParams.set "showBids"
                  (JS.string_of_boolean (showBids (settings gs))) params in
  let params := URLSearchParams.set "showTricks"
                  (JS.string_of_boolean (showTricks (settings gs))) params in
  let params := URLSearchParams.set "showDeal"
                  (JS.string_of_boolean (showDeal (settings gs))) params in
  URLSearchParams.toString params.

(** [params.get(key) !== 'false'] *)
Definition not_false (x : option string) : bool :=
  match x with
  | Some v => negb (String.eqb v "false")
  | None => true
  end.

(** The player [deserializeFromURL] builds from the name at [index]. *)
Definition url_player (index : nat) (n : string) : Player :=
  mkPlayer ("player_" +:+ JS.string_of_number (Z.of_nat index)) (JS.trim n) 0 0 ∅.

(** [deserializeFromURL()], as a function of [window.location.search];
    [None] is [null].  The result is an object with the five state fields. *)
Definition deserializeFromURL (search : string) : option GameState :=
  let params := URLSearchParams.new search in
  if String.eqb (URLSearchParams.toString params) "" then None
  else
    let st :=
      mkGameState []
        (JS.or_string (URLSearchParams.get "game" params) "custom")
        (mkSettings
           (JS.or_string (URLSearchParams.get "theme" params) "purple")
           (not_false (URLSearchParams.get "showRounds" params))
           (JS.Num
              (JS.or_number
                 (JS.parseInt (JS.string_of_nullable (URLSearchParams.get "numRounds" params)))
                 10))
           (not_false (URLSearchParams.get "showBids" params))
           (not_false (URLSearchParams.get "showTricks" params))
           (not_false (URLSearchParams.get "showDeal" params)))
        1 [] in
    let playersParam := URLSearchParams.get "players" params in
    Some (if JS.truthy_string (default "" playersParam)
          then set_players (imap url_player (JS.split "," (default "" playersParam))) st
          else st).

(** ** [init]: the state the page starts from

    [search] is [window.location.search] and [saved] is what
    [loadFromStorage] returns ([None] for [null]). *)
Definition init (search : string) (saved : option Snapshot) : World :=
  match deserializeFromURL search with
  | Some urlState => fromJSON (snapshot_of urlState) initial_world
  | None =>
      match saved with
      | Some savedState => fromJSON savedState initial_world
      | None =>
          fst (addPlayer (Some "Player 2") (fst (addPlayer (Some "Player 1") initial_world)))
      end
  end.

(** ** Which methods end in [notify]

    [addPlayer], [removePlayer], [setGameMode], [updateSettings] and
    [resetGame] always call [notify]; the methods that look a player up call
    it when the player is found; [fromJSON] never does.  [notify] runs the
    observers and [persistState]. *)
Definition found (playerId : string) (s : GameState) : bool :=
  match find_player playerId (players s) with
  | Some _ => true
  | None => false
  end.

Definition notifies (op : Op) (s : GameState) : bool :=
  match op with
  | OpAddPlayer _ => true
  | OpRemovePlayer _ => true
  | OpUpdatePlayer playerId _ => found playerId s
  | OpUpdatePlayerScore playerId _ => found playerId s
  | OpSetPlayerScore playerId _ => found playerId s
  | OpSetGameMode _ => true
  | OpUpdateSettings _ => true
  | OpUpdateRoundData playerId _ _ => found playerId s
  | OpResetGame => true
  | OpFromJSON _ => false
  end.

(** ** The page: [renderUI], the buttons and the event handlers

    [init] subscribes [renderUI], so every method that ends in [notify]
    renders the page again; [updateAddPlayerButton] then sets the [disabled]
    flag of the add-player button, and a disabled button receives no click.
    The answer of a [confirm] dialog comes with the event, and so do the
    values of the fields of the settings form. *)
Record Page := mkPage {
  world : World;
  addPlayerDisabled : bool
}.

(** [btn.disabled] as [updateAddPlayerButton] sets it. *)
Definition updateAddPlayerButton (s : GameState) : bool :=
  (10 <=? length (players s))%nat.

Definition renderUI (w : World) : Page :=
  mkPage w (updateAddPlayerButton (state w)).

(** A method that calls [notify] when [notified] holds. *)
Definition after_method (notified : bool) (w : World) (pg : Page) : Page :=
  if notified then renderUI w else mkPage w (addPlayerDisabled pg).

Inductive UIEvent :=
| ClickAddPlayer
| ClickReset (confirmed : bool)
| ClickGameMode (mode : string) (confirmed : bool)
| ClickScore (playerId : string) (delta : Z)
| ClickDelete (playerId : string) (confirmed : bool)
| InputName (playerId : string) (newName : string)
| ChangeRoundInput (playerId : string) (round : Z) (isBid : bool) (value : Z)
| SaveSettings (theme : string) (rounds : bool) (numRounds : string)
    (bids tricks deal : bool).

(** The object [saveSettings] builds from the form: the number of rounds is
    [parseInt] of the text of its field, [NaN] when the field is empty. *)
Definition form_settings (theme : string) (rounds : bool) (numRounds : string)
    (bids tricks deal : bool) : Settings :=
  mkSettings theme rounds (JS.number_of_parsed (JS.parseInt numRounds))
             bids tricks deal.

(** The listeners of [setupEventListeners], the mode buttons of
    [renderGameModeSelector] and [saveSettings].  A bid or tricks input
    exists in the Pooch table only. *)
Definition handle (ev : UIEvent) (pg : Page) : Page :=
  let w := world pg in
  let s := state w in
  match ev with
  | ClickAddPlayer =>
      if addPlayerDisabled pg then pg
      else after_method true (fst (addPlayer None w)) pg
  | ClickReset confirmed =>
      if confirmed then after_method true (on_state resetGame w) pg else pg
  | ClickGameMode mode confirmed =>
      if confirmed then after_method true (on_state (setGameMode mode) w) pg else pg
  | ClickScore playerId delta =>
      after_method (found playerId s) (on_state (updatePlayerScore playerId delta) w) pg
  | ClickDelete playerId confirmed =>
      if (2 <? length (players s))%nat
      then if confirmed then after_method true (on_state (removePlayer playerId) w) pg
           else pg
      else pg
  | InputName playerId newName =>
      after_method (found playerId s)
        (on_state (updatePlayer playerId (mkPlayerUpdates None (Some newName) None None None)) w)
        pg
  | ChangeRoundInput playerId round isBid value =>
      if String.eqb (gameMode s) "pooch" then
        match handlePlayerContainerChange playerId round isBid value s with
        | Some s' => after_method true (mkWorld s' (playerIdCounter w)) pg
        | None => pg
        end
      else pg
  | SaveSettings theme rounds numRounds bids tricks deal =>
      after_method true
        (on_state
           (updateSettings
              (all_settings (form_settings theme rounds numRounds bids tricks deal))) w)
        pg
  end.

Definition handle_all (evs : list UIEvent) (pg : Page) : Page :=
  fold_left (fun pg ev => handle ev pg) evs pg.

(** The page after [init]: [init] ends by rendering the state. *)
Definition init_page (search : string) (saved : option Snapshot) : Page :=
  renderUI (init search saved).

(** ** [cribbage-board.js]: the holes of the board and the pegs *)

Module CribbageBoard.

Record Hole := mkHole {
  hole_x : Z;
  hole_y : Z;
  hole_position : Z
}.

Definition startX : Z := 40.
Definition spacing : Z := 24.

(** The values of [i] in [for (let i = first; i <= last; i++)]. *)
Definition loop (first last : Z) : list Z :=
  map (fun k => first + Z.of_nat k) (seq 0 (Z.to_nat (last - first + 1))).

(** The array [holes] that [renderCribbageBoard] fills: four rows and the
    finish hole. *)
Definition holes : list Hole :=
  map (fun i => mkHole (startX + i * spacing) 60 i) (loop 0 30)
  ++ map (fun i => mkHole (startX + (60 - i) * spacing) 140 i) (loop 31 60)
  ++ map (fun i => mkHole (startX + (i - 61) * spacing) 220 i) (loop 61 90)
  ++ map (fun i => mkHole (startX + (120 - i) * spacing) 300 i) (loop 91 120)
  ++ [mkHole 400 350 121].

(** [holes.find(h => h.position === position)] *)
Definition find_hole (position : Z) : option Hole :=
  List.find (fun h => hole_position h =? position) holes.

(** The centres [(cx, cy)] of the front and the back peg of a player; [None]
    when there is no hole and no peg is drawn. *)
Definition pegs (p : Player) : option ((Z * Z) * (Z * Z)) :=
  match find_hole (peg_position p) with
  | Some hole => Some ((hole_x hole - 3, hole_y hole), (hole_x hole + 3, hole_y hole))
  | None => None
  end.

End CribbageBoard.

(** ** [script.js]: the scoreboard of two teams *)

Module TeamScoreboard.

(** The two keys of the [scores] object. *)
Inductive Team := TeamA | TeamB.

Record Scores := mkScores {
  scoreA : Z;
  scoreB : Z
}.

(** [let scores = { A: 0, B: 0 }] *)
Definition initial_scores : Scores := mkScores 0 0.

Definition get (team : Team) (s : Scores) : Z :=
  match team with TeamA => scoreA s | TeamB => scoreB s end.

Definition set (team : Team) (v : Z) (s : Scores) : Scores :=
  match team with
  | TeamA => mkScores v (scoreB s)
  | TeamB => mkScores (scoreA s) v
  end.

Definition updateScore (team : Team) (delta : Z) (s : Scores) : Scores :=
  let s1 := set team (get team s + delta) s in
  if get team s1 <? 0 then set team 0 s1 else s1.

Definition resetScores (s : Scores) : Scores := mkScores 0 0.

(** The buttons of the page. *)
Inductive Action :=
| Update (team : Team) (delta : Z)
| Reset.

Definition act (a : Action) (s : Scores) : Scores :=
  match a with
  | Update team delta => updateScore team delta s
  | Reset => resetScores s
  end.

Definition play (actions : list Action) (s : Scores) : Scores :=
  fold_left (fun s a => act a s) actions s.

End TeamScoreboard.

(** ** Predicates of the statements *)

(** No player has a negative score. *)
Definition nonneg_scores (ps : list Player) : Prop :=
  Forall (fun p => 0 <= score p) ps.

(** The operations that store a score only through the clamp of
    [updatePlayerScore] and [setPlayerScore], or store one that is not
    negative: all but an [updatePlayer] whose [score] field is negative and a
    [fromJSON] whose players have negative scores. *)
Definition stores_no_negative_score (op : Op) : Prop :=
  match op with
  | OpUpdatePlayer _ updates =>
      match upd_score updates with Some v => 0 <= v | None => True end
  | OpFromJSON data =>
      match s_players data with Some ps => nonneg_scores ps | None => True end
  | _ => True
  end.

(** The two fields [fromJSON] reads only when they are truthy are truthy:
    the mode is not the empty string and the round is not 0.  The data model
    asks for more (a mode of the three presets, a round of at least 1). *)
Definition truthy_mode_and_round (s : GameState) : Prop :=
  gameMode s <> "" /\ currentRound s <> 0.

(** An operation that does not set the empty string as the mode. *)
Definition sets_named_mode (op : Op) : Prop :=
  match op with
  | OpSetGameMode mode => mode <> ""
  | _ => True
  end.

(** Every character of a string passes a test; a string without a given
    character. *)
Fixpoint all_chars (P : ascii -> bool) (s : string) : bool :=
  match s with
  | EmptyString => true
  | String c r => P c && all_chars P r
  end.

Definition has_no (sep : ascii) (s : string) : bool :=
  all_chars (fun c => negb (Ascii.eqb c sep)) s.

Definition is_decimal_digit (c : ascii) : bool :=
  match JS.radix_digit 10 c with Some _ => true | None => false end.

(** The UTF-8 encoding of a code point below U+10000, and the code points
    of [WhiteSpace] and [LineTerminator]: U+0009 to U+000D, U+0020, U+00A0,
    U+1680, U+2000 to U+200A, U+2028, U+2029, U+202F, U+205F, U+3000 and
    U+FEFF. *)
Definition utf8 (n : N) : string :=
  (if n <? 128 then String (ascii_of_N n) ""
   else if n <? 2048 then
     String (ascii_of_N (192 + n / 64)) (String (ascii_of_N (128 + n mod 64)) "")
   else
     String (ascii_of_N (224 + n / 4096))
       (String (ascii_of_N (128 + (n / 64) mod 64))
          (String (ascii_of_N (128 + n mod 64)) "")))%N.

Definition is_white_space_code_point (n : N) : bool :=
  (((9 <=? n) && (n <=? 13)) || (n =? 32) || (n =? 160) || (n =? 5760)
   || ((8192 <=? n) && (n <=? 8202)) || (n =? 8232) || (n =? 8233) || (n =? 8239)
   || (n =? 8287) || (n =? 12288) || (n =? 65279))%N.

(** A test holds of [count] numbers from [n] on. *)
Fixpoint all_from (P : N -> bool) (count : nat) (n : N) : bool :=
  match count with
  | O => true
  | S count' => P n && all_from P count' (N.succ n)
  end.

(** The characters the urlencoded serializer produces for a name or a
    value: the unreserved ones, [+] and [%]. *)
Definition is_encoded_char (c : ascii) : bool :=
  URLSearchParams.is_unreserved c || Ascii.eqb c "+" || Ascii.eqb c "%".

(** The player names that come back from a URL as they went in: no name has
    a comma, no name starts or ends with white space ([trim] leaves it as it
    is; U+00A0, U+FEFF and the other space code points count as white
    space), and the list is not the single empty name. *)
Definition names_survive (names : list string) : Prop :=
  names <> [""]
  /\ Forall (fun n => has_no "," n = true /\ JS.trim n = n) names.

(** ** Example states *)

(** A custom game of two players without points. *)
Definition custom_example : GameState :=
  mkGameState [mkPlayer "player_0" "Player 1" 0 0 ∅;
               mkPlayer "player_1" "Player 2" 0 0 ∅]
              "custom" default_settings 1 [].

(** A Pooch game of two players before the first round. *)
Definition pooch_example : GameState :=
  mkGameState [mkPlayer "player_0" "Player 1" 0 0 ∅;
               mkPlayer "player_1" "Player 2" 0 0 ∅]
              "pooch" default_settings 1 [].

(** A cribbage game in which the first player has 100 points. *)
Definition cribbage_example : GameState :=
  mkGameState [mkPlayer "player_0" "Player 1" 100 100 ∅;
               mkPlayer "player_1" "Player 2" 0 0 ∅]
              "cribbage" default_settings 1 [].

(** A player whose name has a comma, one whose name ends in a space and one
    without a name. *)
Definition comma_example : GameState :=
  mkGameState [mkPlayer "player_0" "Smith, Ann" 12 0 ∅]
              "custom" default_settings 1 [].

Definition space_example : GameState :=
  mkGameState [mkPlayer "player_0" "Ann " 12 0 ∅; mkPlayer "player_1" "Bob" 7 0 ∅]
              "custom" default_settings 1 [].

Definition unnamed_example : GameState :=
  mkGameState [mkPlayer "player_0" "" 12 0 ∅] "custom" default_settings 1 [].

(** A player whose name ends in a no-break space, U+00A0 (the bytes
    [C2 A0]). *)
Definition no_break_space : string := String "194" (String "160" "").

Definition no_break_space_example : GameState :=
  mkGameState [mkPlayer "player_0" ("Ann" +:+ no_break_space) 12 0 ∅]
              "custom" default_settings 1 [].

(** The default game after [setGameMode('')]. *)
Definition empty_mode_example : GameState := setGameMode "" custom_example.

(** ** More predicates and descriptions for the statements *)

(** The player with a score stored through the clamp, in a given mode. *)
Definition with_score (mode : string) (v : Z) (p : Player) : Player :=
  mkPlayer (id p) (name p) (Z.max 0 v)
           (if String.eqb mode "cribbage" then Z.max 0 v else position p)
           (roundData p).

(** An operation other than [fromJSON]. *)
Definition not_fromJSON (op : Op) : Prop :=
  match op with
  | OpFromJSON _ => False
  | _ => True
  end.

(** The ids are pairwise distinct and the counter is above the number of
    every id that has one. *)
Definition fresh_ids (w : World) : Prop :=
  List.NoDup (map id (players (state w)))
  /\ Forall (fun p => forall n, id_number (id p) = Some n -> n < playerIdCounter w)
            (players (state w)).

(** An operation that assigns no id to a player: any but an [updatePlayer]
    with an [id] field and a [fromJSON] of players that share an id. *)
Definition keeps_ids (op : Op) : Prop :=
  match op with
  | OpUpdatePlayer _ updates => upd_id updates = None
  | OpFromJSON data =>
      match s_players data with
      | Some ps => List.NoDup (map id ps)
      | None => True
      end
  | _ => True
  end.

(** Every stored position is the player's score. *)
Definition positions_synced (s : GameState) : Prop :=
  Forall (fun p => position p = score p) (players s).

(** The operations of a cribbage game that leave the mode and write no score
    or position past [updatePlayerScore] and [setPlayerScore]. *)
Definition keeps_positions (op : Op) : Prop :=
  match op with
  | OpSetGameMode mode => mode = "cribbage"
  | OpUpdatePlayer _ updates => upd_score updates = None /\ upd_position updates = None
  | OpFromJSON _ => False
  | _ => True
  end.

(** A custom game in which the first player has 5 points. *)
Definition custom_game_with_points : GameState :=
  mkGameState [mkPlayer "player_0" "Player 1" 5 0 ∅;
               mkPlayer "player_1" "Player 2" 0 0 ∅]
              "custom" default_settings 1 [].

(** A hole inside the view box [0 0 800 400], with a position of the track. *)
Definition hole_in_view (h : CribbageBoard.Hole) : bool :=
  (40 <=? CribbageBoard.hole_x h) && (CribbageBoard.hole_x h <=? 760)
  && (60 <=? CribbageBoard.hole_y h) && (CribbageBoard.hole_y h <=? 350)
  && (0 <=? CribbageBoard.hole_position h) && (CribbageBoard.hole_position h <=? 121).

(** A round entry of the Pooch table: it has a score exactly when it has a
    bid and tricks, and the score is the one [calculateScore] gives. *)
Definition entry_consistent (rd : RoundEntry) : Prop :=
  match rd_bid rd, rd_tricks rd with
  | Some b, Some t => rd_score rd = Some (Games.calculateScore b t)
  | _, _ => rd_score rd = None
  end.

(** A player of the Pooch table: the total is the sum of the round scores. *)
Definition pooch_consistent (p : Player) : Prop :=
  score p = sum_round_scores (roundData p)
  /\ map_Forall (fun _ rd => entry_consistent rd) (roundData p).

(** Entries typed into the Pooch table one after the other: the player, the
    round, bid or tricks, and the value.  [None] when a handler throws. *)
Fixpoint enter_all (inputs : list (string * Z * bool * Z)) (s : GameState)
    : option GameState :=
  match inputs with
  | [] => Some s
  | (playerId, round, isBid, value) :: rest =>
      match handlePlayerContainerChange playerId round isBid value s with
      | Some s' => enter_all rest s'
      | None => None
      end
  end.

(** The page shows the state: the ids are distinct and the add-player
    button is disabled as the last rendering left it. *)
Definition page_rendered (pg : Page) : Prop :=
  fresh_ids (world pg)
  /\ addPlayerDisabled pg = updateAddPlayerButton (state (world pg)).

(** The number of players on a page. *)
Definition player_count (pg : Page) : nat :=
  length (players (state (world pg))).

(** The default page after the settings were saved with the field of the
    number of rounds emptied: [numberOfRounds] is [NaN]. *)
Definition emptied_rounds_example : GameState :=
  state (world (handle (SaveSettings "purple" true "" true true true)
                  (init_page "" None))).
(** * Properties *)

(** ** The score rules of [games.js] *)

(** C3: for all integers [bid] and [tricks], the Pooch [calculateScore] is
    [bid + 10] when the bid equals the tricks taken and [-2 * |bid - tricks|]
    otherwise; in particular it is 15 at (5,5), -2 at (4,3), 10 at (0,0) and
    -6 at (3,0). *)
Theorem calculateScore_spec (bid tricks : Z) :
  (bid = tricks -> Games.calculateScore bid tricks = bid + 10)
  /\ (bid <> tricks -> Games.calculateScore bid tricks = -2 * Z.abs (bid - tricks))
  /\ Games.calculateScore 5 5 = 15
  /\ Games.calculateScore 4 3 = -2
  /\ Games.calculateScore 0 0 = 10
  /\ Games.calculateScore 3 0 = -6.
Proof.
  unfold Games.calculateScore.
  repeat split; try reflexivity.
  - intros ->. now rewrite Z.eqb_refl.
  - intros Hne. apply Z.eqb_neq in Hne. rewrite Hne. lia.
Qed.

Lemma calculateScore_spec_witness :
  Games.calculateScore 7 7 = 17 /\ Games.calculateScore 2 6 = -2 * Z.abs (2 - 6).
Proof.
  split.
  - exact (proj1 (calculateScore_spec 7 7) eq_refl).
  - apply (proj1 (proj2 (calculateScore_spec 2 6))). discriminate.
Defined.

(** A missed bid never scores above zero, an exact bid of a non-negative
    number of tricks scores at least ten. *)
Lemma calculateScore_sign (bid tricks : Z) :
  (bid <> tricks -> Games.calculateScore bid tricks < 0)
  /\ (0 <= bid -> bid = tricks -> 10 <= Games.calculateScore bid tricks).
Proof.
  unfold Games.calculateScore. split.
  - intros Hne. apply Z.eqb_neq in Hne. rewrite Hne. lia.
  - intros Hb ->. rewrite Z.eqb_refl. lia.
Qed.

(** C4: for every integer score the cribbage [calculatePosition] is
    [min(score, 121)] and [checkWin] holds exactly when [score >= 121];
    position(0)=0, position(121)=121, position(200)=121, checkWin(120) is
    false and checkWin(121) is true. *)
Theorem cribbage_logic_spec (score : Z) :
  Games.calculatePosition score = Z.min score 121
  /\ (Games.checkWin score = true <-> score >= 121)
  /\ Games.calculatePosition 0 = 0
  /\ Games.calculatePosition 121 = 121
  /\ Games.calculatePosition 200 = 121
  /\ Games.checkWin 120 = false
  /\ Games.checkWin 121 = true.
Proof.
  unfold Games.calculatePosition, Games.checkWin.
  repeat split; try reflexivity.
  - intros H. apply Z.geb_le in H. lia.
  - intros H. apply Z.geb_le. lia.
Qed.

(** The position is the score up to the last hole and the last hole after it. *)
Lemma calculatePosition_cases (score : Z) :
  (score <= 121 -> Games.calculatePosition score = score)
  /\ (121 <= score -> Games.calculatePosition score = 121).
Proof. unfold Games.calculatePosition. lia. Qed.

(** The cards of a round: 10 in round 1 down to 1 in round 10, and the
    default of 10 for a round outside the table. *)
Lemma maxCards_spec (round : Z) :
  (1 <= round <= 10 -> Games.maxCards round = 11 - round)
  /\ (round < 1 \/ 10 < round -> Games.maxCards round = 10).
Proof.
  unfold Games.maxCards. split.
  - intros H.
    assert (Hr : round = 1 \/ round = 2 \/ round = 3 \/ round = 4 \/ round = 5
                 \/ round = 6 \/ round = 7 \/ round = 8 \/ round = 9 \/ round = 10) by lia.
    repeat (destruct Hr as [->|Hr]; [reflexivity|]). now subst.
  - intros [H|H].
    + destruct (Z.ltb_spec (round - 1) 0); [reflexivity|lia].
    + destruct (Z.ltb_spec (round - 1) 0); [reflexivity|].
      replace (Games.roundCards !! Z.to_nat (round - 1)) with (@None Z); [reflexivity|].
      symmetry. apply lookup_ge_None. simpl. lia.
Qed.

(** ** Players found and changed in place *)

Section ModifyPlayer.

Variable playerId : string.
Variable f : Player -> Player.

Lemma find_player_id ps p :
  find_player playerId ps = Some p -> id p = playerId.
Proof.
  unfold find_player. intros H. apply find_some in H as [_ H].
  now apply String.eqb_eq.
Qed.

Lemma find_player_In ps p :
  find_player playerId ps = Some p -> In p ps.
Proof. unfold find_player. intros H. now apply find_some in H. Qed.

(** The player changed by a method is the one [find] returned, and [find]
    returns the changed player afterwards when its id is kept. *)
Lemma find_modify_player ps p :
  find_player playerId ps = Some p ->
  id (f p) = id p ->
  find_player playerId (modify_player playerId f ps) = Some (f p).
Proof.
  unfold find_player. induction ps as [|q ps IH]; simpl; [discriminate|].
  destruct (String.eqb (id q) playerId) eqn:E; intros H Hid.
  - injection H as ->. simpl. now rewrite Hid, E.
  - simpl. rewrite E. now apply IH.
Qed.

(** A method called with an id no player has changes no player. *)
Lemma modify_player_absent ps :
  find_player playerId ps = None -> modify_player playerId f ps = ps.
Proof.
  unfold find_player. induction ps as [|q ps IH]; simpl; [reflexivity|].
  destruct (String.eqb (id q) playerId); [discriminate|].
  intros H. now rewrite IH.
Qed.

Lemma length_modify_player ps :
  length (modify_player playerId f ps) = length ps.
Proof.
  induction ps as [|q ps IH]; simpl; [reflexivity|].
  destruct (String.eqb (id q) playerId); simpl; congruence.
Qed.

(** A property every player has is kept when the change keeps it. *)
Lemma Forall_modify_player (P : Player -> Prop) ps :
  (forall p, P p -> P (f p)) ->
  Forall P ps -> Forall P (modify_player playerId f ps).
Proof.
  intros Hf. induction 1 as [|q ps Hq Hps IH]; simpl; [constructor|].
  destruct (String.eqb (id q) playerId); constructor; auto.
Qed.

End ModifyPlayer.

(** A player of a mapped list comes from a player of the list. *)
Ltac mapped_player p q Hq :=
  apply List.Forall_forall; intros p Hp;
  apply in_map_iff in Hp as (q & <- & Hq).

(** ** Frame properties of [setGameMode] and [resetGame] *)

(** C8: [setGameMode(mode)] sets [gameMode] to the mode, resets
    [currentRound] to 1, clears [rounds] and every player's [roundData],
    and leaves every player's name and score (and id, position, and the
    settings) as they were. *)
Theorem setGameMode_frame (mode : string) (s : GameState) :
  gameMode (setGameMode mode s) = mode
  /\ currentRound (setGameMode mode s) = 1
  /\ rounds (setGameMode mode s) = []
  /\ Forall (fun p => roundData p = ∅) (players (setGameMode mode s))
  /\ map name (players (setGameMode mode s)) = map name (players s)
  /\ map score (players (setGameMode mode s)) = map score (players s)
  /\ map id (players (setGameMode mode s)) = map id (players s)
  /\ map position (players (setGameMode mode s)) = map position (players s)
  /\ settings (setGameMode mode s) = settings s.
Proof.
  unfold setGameMode; simpl.
  repeat split; try (rewrite map_map; reflexivity).
  mapped_player p q Hq. reflexivity.
Qed.

(** C9: [resetGame()] sets every player's score and position to 0 and its
    [roundData] to empty, resets [currentRound] to 1 and clears [rounds]; the
    length and order of the player list, the ids and the names are unchanged
    (and so are the game mode and the settings). *)
Theorem resetGame_frame (s : GameState) :
  Forall (fun p => score p = 0 /\ position p = 0 /\ roundData p = ∅)
         (players (resetGame s))
  /\ currentRound (resetGame s) = 1
  /\ rounds (resetGame s) = []
  /\ length (players (resetGame s)) = length (players s)
  /\ map id (players (resetGame s)) = map id (players s)
  /\ map name (players (resetGame s)) = map name (players s)
  /\ gameMode (resetGame s) = gameMode s
  /\ settings (resetGame s) = settings s.
Proof.
  unfold resetGame; simpl.
  repeat split; try (rewrite map_map; reflexivity).
  - mapped_player p q Hq. repeat split.
  - apply length_map.
Qed.

(** ** Scores and positions under the score mutations *)

(** What [updatePlayerScore] and [setPlayerScore] do to the player found. *)
Lemma updatePlayerScore_found playerId delta s p :
  find_player playerId (players s) = Some p ->
  exists p',
    find_player playerId (players (updatePlayerScore playerId delta s)) = Some p'
    /\ score p' = Z.max 0 (score p + delta)
    /\ position p' = (if String.eqb (gameMode s) "cribbage" then score p' else position p)
    /\ id p' = id p /\ name p' = name p /\ roundData p' = roundData p.
Proof.
  intros Hf. unfold updatePlayerScore; simpl.
  eexists. split.
  - apply find_modify_player; [exact Hf|].
    destruct (String.eqb (gameMode s) "cribbage"), (score p + delta <? 0); reflexivity.
  - destruct (String.eqb (gameMode s) "cribbage");
      destruct (Z.ltb_spec (score p + delta) 0); simpl;
      repeat split; lia.
Qed.

Lemma setPlayerScore_found playerId new_score s p :
  find_player playerId (players s) = Some p ->
  exists p',
    find_player playerId (players (setPlayerScore playerId new_score s)) = Some p'
    /\ score p' = Z.max 0 new_score
    /\ position p' = (if String.eqb (gameMode s) "cribbage" then score p' else position p)
    /\ id p' = id p /\ name p' = name p /\ roundData p' = roundData p.
Proof.
  intros Hf. unfold setPlayerScore; simpl.
  eexists. split.
  - apply find_modify_player; [exact Hf|].
    destruct (String.eqb (gameMode s) "cribbage"); reflexivity.
  - destruct (String.eqb (gameMode s) "cribbage"); simpl; repeat split.
Qed.

(** The hole a peg is drawn in is the stored position cut off at 121. *)
Lemma peg_position_min (p : Player) : peg_position p = Z.min (position p) 121.
Proof.
  unfold peg_position, JS.or_number, JS.truthy_number.
  destruct (Z.eqb_spec (position p) 0) as [->|]; reflexivity.
Qed.

(** C2, as the code has it: in cribbage mode, after [updatePlayerScore] or
    [setPlayerScore] on an existing player the stored position equals the
    new score itself (it is not cut off at 121, so it is [min(score, 121)]
    only while the score is at most 121); the cut at 121 is made where the
    pegs are drawn. *)
Theorem cribbage_position_is_score (playerId : string) (s : GameState) (p : Player) :
  gameMode s = "cribbage" ->
  find_player playerId (players s) = Some p ->
  (forall delta, exists p',
      find_player playerId (players (updatePlayerScore playerId delta s)) = Some p'
      /\ score p' = Z.max 0 (score p + delta)
      /\ position p' = score p'
      /\ (score p' <= 121 -> position p' = Z.min (score p') 121)
      /\ peg_position p' = Z.min (score p') 121)
  /\ (forall new_score, exists p',
      find_player playerId (players (setPlayerScore playerId new_score s)) = Some p'
      /\ score p' = Z.max 0 new_score
      /\ position p' = score p'
      /\ (score p' <= 121 -> position p' = Z.min (score p') 121)
      /\ peg_position p' = Z.min (score p') 121).
Proof.
  intros Hmode Hf. split.
  - intros delta.
    destruct (updatePlayerScore_found playerId delta s p Hf) as (p' & H1 & H2 & H3 & _).
    rewrite Hmode in H3. simpl in H3.
    exists p'. rewrite peg_position_min, H3. repeat split; auto; lia.
  - intros v.
    destruct (setPlayerScore_found playerId v s p Hf) as (p' & H1 & H2 & H3 & _).
    rewrite Hmode in H3. simpl in H3.
    exists p'. rewrite peg_position_min, H3. repeat split; auto; lia.
Qed.

Lemma cribbage_position_is_score_witness :
  exists p',
    find_player "player_0" (players (updatePlayerScore "player_0" 5 cribbage_example)) = Some p'
    /\ score p' = Z.max 0 (100 + 5)
    /\ position p' = score p'
    /\ (score p' <= 121 -> position p' = Z.min (score p') 121)
    /\ peg_position p' = Z.min (score p') 121.
Proof.
  exact (proj1 (cribbage_position_is_score "player_0" cribbage_example
                  (mkPlayer "player_0" "Player 1" 100 100 ∅) eq_refl eq_refl) 5).
Defined.

(** C2 as stated fails: a cribbage score set to 200, or raised from 100 by
    30, is stored as the position, which is then not [min(score, 121)]. *)
Lemma cribbage_position_exceeds_121 :
  (exists p',
      find_player "player_0" (players (setPlayerScore "player_0" 200 cribbage_example)) = Some p'
      /\ score p' = 200 /\ position p' = 200 /\ Z.min (score p') 121 = 121
      /\ position p' <> Z.min (score p') 121)
  /\ (exists p',
      find_player "player_0" (players (updatePlayerScore "player_0" 30 cribbage_example)) = Some p'
      /\ score p' = 130 /\ position p' = 130 /\ Z.min (score p') 121 = 121
      /\ position p' <> Z.min (score p') 121).
Proof.
  split; eexists; (split; [reflexivity|]); simpl; repeat split; discriminate.
Qed.

(** ** Scores under runs of operations *)

Lemma step_keeps_nonneg_scores (op : Op) (w : World) :
  stores_no_negative_score op ->
  nonneg_scores (players (state w)) ->
  nonneg_scores (players (state (step op w))).
Proof.
  unfold nonneg_scores. intros Hop Hw.
  destruct op as [n|pid|pid u|pid delta|pid v|mode|st|pid r d| |data]; simpl in *.
  - apply Forall_app. split; [exact Hw|]. repeat constructor. simpl. lia.
  - apply List.Forall_forall. intros p Hp. apply filter_In in Hp as [Hp _].
    revert p Hp. now apply List.Forall_forall.
  - apply Forall_modify_player; [|exact Hw].
    intros p Hp. unfold assign_player; simpl.
    destruct (upd_score u); simpl; assumption.
  - apply Forall_modify_player; [|exact Hw].
    intros p Hp.
    destruct (String.eqb (gameMode (state w)) "cribbage");
      destruct (Z.ltb_spec (score p + delta) 0); simpl; lia.
  - apply Forall_modify_player; [|exact Hw].
    intros p Hp.
    destruct (String.eqb (gameMode (state w)) "cribbage"); simpl; lia.
  - mapped_player p q Hq. simpl. revert q Hq. now apply List.Forall_forall.
  - exact Hw.
  - apply Forall_modify_player; [|exact Hw]. intros p Hp. exact Hp.
  - mapped_player p q Hq. simpl. lia.
  - destruct (s_players data); simpl; assumption.
Qed.

(** C1, as the code has it: [updatePlayerScore] and [setPlayerScore] clamp
    the score they store at 0, and over every run of operations that store
    scores through them only (any operation but an [updatePlayer] with a
    negative [score] field or a [fromJSON] of negative scores) no score
    becomes negative; [updatePlayer] stores the score it is given, without a
    clamp. *)
Theorem scores_clamped_by_score_mutations :
  (forall playerId delta s p,
      find_player playerId (players s) = Some p ->
      exists p',
        find_player playerId (players (updatePlayerScore playerId delta s)) = Some p'
        /\ score p' = Z.max 0 (score p + delta) /\ 0 <= score p')
  /\ (forall playerId new_score s p,
      find_player playerId (players s) = Some p ->
      exists p',
        find_player playerId (players (setPlayerScore playerId new_score s)) = Some p'
        /\ score p' = Z.max 0 new_score /\ 0 <= score p')
  /\ (forall ops w,
      nonneg_scores (players (state w)) ->
      Forall stores_no_negative_score ops ->
      nonneg_scores (players (state (run ops w))))
  /\ (forall playerId updates v s p,
      find_player playerId (players s) = Some p ->
      upd_id updates = None ->
      upd_score updates = Some v ->
      exists p',
        find_player playerId (players (updatePlayer playerId updates s)) = Some p'
        /\ score p' = v).
Proof.
  repeat split.
  - intros pid delta s p Hf.
    destruct (updatePlayerScore_found pid delta s p Hf) as (p' & H1 & H2 & _).
    exists p'. repeat split; auto. lia.
  - intros pid v s p Hf.
    destruct (setPlayerScore_found pid v s p Hf) as (p' & H1 & H2 & _).
    exists p'. repeat split; auto. lia.
  - intros ops. unfold run.
    induction ops as [|op ops IH]; intros w Hw Hops; simpl; [exact Hw|].
    apply Forall_cons in Hops as [Hop Hops].
    apply IH; [|exact Hops]. now apply step_keeps_nonneg_scores.
  - intros pid u v s p Hf Hid Hv.
    exists (assign_player p u). split.
    + unfold updatePlayer; simpl.
      apply (find_modify_player pid (fun q => assign_player q u)); [exact Hf|].
      unfold assign_player; simpl. now rewrite Hid.
    + unfold assign_player; simpl. now rewrite Hv.
Qed.

Lemma scores_clamped_by_score_mutations_witness :
  (exists p',
      find_player "player_1" (players (updatePlayerScore "player_1" (-3) custom_example)) = Some p'
      /\ score p' = Z.max 0 (0 + -3) /\ 0 <= score p')
  /\ (exists p',
      find_player "player_1" (players (setPlayerScore "player_1" (-8) custom_example)) = Some p'
      /\ score p' = Z.max 0 (-8) /\ 0 <= score p')
  /\ nonneg_scores
       (players (state (run [OpAddPlayer None; OpUpdatePlayerScore "player_0" 4;
                             OpUpdatePlayerScore "player_0" (-9); OpSetPlayerScore "player_2" (-1);
                             OpUpdatePlayer "player_1" (mkPlayerUpdates None (Some "Ann") (Some 3) None None);
                             OpSetGameMode "cribbage"; OpResetGame]
                         (mkWorld custom_example 2))))
  /\ (exists p',
      find_player "player_0"
        (players (updatePlayer "player_0" (mkPlayerUpdates None None (Some 42) None None)
                    custom_example)) = Some p'
      /\ score p' = 42).
Proof.
  pose proof scores_clamped_by_score_mutations as (Hupdate & Hset & Hrun & Hassign).
  split; [|split; [|split]].
  - exact (Hupdate "player_1" (-3) custom_example
             (mkPlayer "player_1" "Player 2" 0 0 ∅) eq_refl).
  - exact (Hset "player_1" (-8) custom_example
             (mkPlayer "player_1" "Player 2" 0 0 ∅) eq_refl).
  - apply Hrun.
    + repeat constructor; simpl; lia.
    + repeat constructor; simpl; lia.
  - exact (Hassign "player_0" (mkPlayerUpdates None None (Some 42) None None) 42
             custom_example (mkPlayer "player_0" "Player 1" 0 0 ∅) eq_refl eq_refl eq_refl).
Defined.

(** C1 as stated fails: [updatePlayer] with a negative [score] field stores
    it, alone or at the end of a run from the initial state. *)
Lemma updatePlayer_stores_negative_score :
  (exists p',
      find_player "player_0"
        (players (updatePlayer "player_0" (mkPlayerUpdates None None (Some (-5)) None None)
                    custom_example)) = Some p'
      /\ score p' = -5 /\ score p' < 0)
  /\ (exists p',
      find_player "player_0"
        (players (state (run [OpAddPlayer None; OpUpdatePlayerScore "player_0" 3;
                              OpUpdatePlayer "player_0"
                                (mkPlayerUpdates None None (Some (-5)) None None)]
                          initial_world))) = Some p'
      /\ score p' = -5 /\ score p' < 0).
Proof.
  split; eexists; (split; [reflexivity|]); simpl; split; reflexivity.
Qed.

(** The Pooch table assigns the sum of the round scores to the player's
    score: after a bid of 4 and 3 tricks in round 1 the total is -2. *)
Lemma pooch_total_can_be_negative :
  exists s1 s2 p,
    handlePlayerContainerChange "player_0" 1 true 4 pooch_example = Some s1
    /\ handlePlayerContainerChange "player_0" 1 false 3 s1 = Some s2
    /\ find_player "player_0" (players s2) = Some p
    /\ score p = -2.
Proof. do 3 eexists. repeat split; vm_compute; reflexivity. Qed.

(** ** Strings: [split] and [join] *)

(** A case for each of the 256 bytes. *)
Ltac each_byte c := destruct c as [[] [] [] [] [] [] [] []].

Lemma all_chars_app P a b :
  all_chars P (a +:+ b) = all_chars P a && all_chars P b.
Proof.
  induction a as [|c a IH]; simpl; [reflexivity|].
  now rewrite IH, andb_assoc.
Qed.

Lemma all_chars_impl (P Q : ascii -> bool) s :
  (forall c, P c = true -> Q c = true) ->
  all_chars P s = true -> all_chars Q s = true.
Proof.
  intros HPQ. induction s as [|c s IH]; simpl; [reflexivity|].
  intros H. apply andb_prop in H as [Hc Hs].
  now rewrite (HPQ c Hc), IH.
Qed.

Lemma split_not_nil sep s : JS.split sep s <> [].
Proof.
  destruct s as [|c s]; simpl; [discriminate|].
  destruct (Ascii.eqb c sep); [discriminate|].
  destruct (JS.split sep s); discriminate.
Qed.

(** Splitting at a separator the string does not have, and at the first
    separator. *)
Lemma split_has_no sep s : has_no sep s = true -> JS.split sep s = [s].
Proof.
  unfold has_no. induction s as [|c s IH]; simpl; [reflexivity|].
  intros H. apply andb_prop in H as [Hc Hs].
  apply negb_true_iff in Hc. rewrite Hc, IH by exact Hs. reflexivity.
Qed.

Lemma split_app_sep sep a b :
  has_no sep a = true ->
  JS.split sep (a +:+ String sep b) = a :: JS.split sep b.
Proof.
  unfold has_no. induction a as [|c a IH]; simpl.
  - intros _. now rewrite Ascii.eqb_refl.
  - intros H. apply andb_prop in H as [Hc Hs].
    apply negb_true_iff in Hc. rewrite Hc, IH by exact Hs. reflexivity.
Qed.

(** [split] undoes [join] when no element has the separator. *)
Lemma split_join sep l :
  l <> [] ->
  Forall (fun x => has_no sep x = true) l ->
  JS.split sep (JS.join (String sep EmptyString) l) = l.
Proof.
  intros Hne Hall. induction Hall as [|x l Hx Hl IH]; [congruence|].
  destruct l as [|y l].
  - simpl. now apply split_has_no.
  - change (JS.join (String sep "") (x :: y :: l))
      with (x +:+ String sep (JS.join (String sep "") (y :: l))).
    rewrite split_app_sep by exact Hx. f_equal. apply IH. discriminate.
Qed.

(** ** White space

    The encodings [trimStart] recognises are those of the white space code
    points and no other: a string of one code point below U+10000 is white
    space only exactly when the code point is one of the table.  (A code
    point from U+10000 on starts with a byte [F0] to [F4], which no test
    accepts.) *)
Lemma all_from_spec P count n k :
  all_from P count n = true -> (n <= k < n + N.of_nat count)%N -> P k = true.
Proof.
  revert n. induction count as [|count IH]; intros n H Hk; [lia|].
  simpl in H. apply andb_prop in H as [Hn H].
  destruct (N.eq_dec k n) as [->|Hne]; [exact Hn|].
  apply (IH (N.succ n) H). lia.
Qed.

Lemma is_blank_code_point n :
  (n < 65536)%N -> JS.is_blank (utf8 n) = is_white_space_code_point n.
Proof.
  intros Hn. apply Bool.eqb_prop.
  apply (all_from_spec
           (fun k => Bool.eqb (JS.is_blank (utf8 k)) (is_white_space_code_point k))
           (N.to_nat 65536) 0).
  - vm_compute. reflexivity.
  - lia.
Qed.

(** [trimStart] drops a white space code point at the start, whatever
    follows it. *)
Lemma trim_code_point n s :
  (n < 65536)%N -> is_white_space_code_point n = true ->
  JS.trimStart (utf8 n +:+ s) = JS.trimStart s.
Proof.
  intros Hn Hw. unfold is_white_space_code_point in Hw.
  repeat (apply orb_prop in Hw as [Hw|Hw]);
    try (apply andb_prop in Hw as [Hlo Hhi];
         apply N.leb_le in Hlo; apply N.leb_le in Hhi);
    try apply N.eqb_eq in Hw; subst; try reflexivity.
  - assert (n = 9 \/ n = 10 \/ n = 11 \/ n = 12 \/ n = 13)%N
      as [->|[->|[->|[->| ->]]]] by lia; reflexivity.
  - assert (n = 8192 \/ n = 8193 \/ n = 8194 \/ n = 8195 \/ n = 8196 \/ n = 8197
            \/ n = 8198 \/ n = 8199 \/ n = 8200 \/ n = 8201 \/ n = 8202)%N
      as [->|[->|[->|[->|[->|[->|[->|[->|[->|[->| ->]]]]]]]]]] by lia; reflexivity.
Qed.

(** ** Decimal numerals: [parseInt] reads back what [String] prints *)

(** Reading the digits of a numeral gives the number the numeral denotes. *)
Lemma digits_acc_uint_pos d acc :
  JS.digits_acc 10 (NilEmpty.string_of_uint d) (Z.pos acc)
  = Z.pos (Pos.of_uint_acc d acc).
Proof.
  revert acc. induction d; intros acc; simpl; try reflexivity;
    rewrite <- IHd; f_equal; lia.
Qed.

Lemma digits_acc_uint_zero d :
  JS.digits_acc 10 (NilEmpty.string_of_uint d) 0 = Z.of_N (Pos.of_uint d).
Proof.
  induction d; simpl; try reflexivity; try exact IHd;
    apply (digits_acc_uint_pos d).
Qed.

Lemma all_chars_string_of_uint d :
  all_chars is_decimal_digit (NilEmpty.string_of_uint d) = true.
Proof. induction d; simpl; auto. Qed.

Lemma parse_digits_uint d :
  d <> Nil ->
  JS.parse_digits 10 (NilEmpty.string_of_uint d) = Some (Z.of_uint d).
Proof.
  intros Hd. unfold JS.parse_digits.
  pose proof (digits_acc_uint_zero d) as H.
  destruct d; try congruence; simpl in *; now rewrite H.
Qed.

(** A string of decimal digits has no radix prefix, no sign and no leading
    white space. *)
Lemma strip_radix_prefix_digits s :
  all_chars is_decimal_digit s = true -> JS.strip_radix_prefix s = (10, s).
Proof.
  destruct s as [|c1 [|c2 r]]; simpl; try reflexivity.
  intros H. apply andb_prop in H as [_ H]. apply andb_prop in H as [H _].
  destruct (Ascii.eqb_spec c2 "x") as [->|]; [discriminate|].
  destruct (Ascii.eqb_spec c2 "X") as [->|]; [discriminate|].
  now rewrite andb_false_r.
Qed.

(** No white space starts with a decimal digit or a minus sign. *)
Lemma trimStart_digit c s :
  is_decimal_digit c = true -> JS.trimStart (String c s) = String c s.
Proof.
  intros H. each_byte c; try discriminate H; destruct s as [|c2 [|c3 s]]; reflexivity.
Qed.

Lemma trimStart_minus s : JS.trimStart (String "-" s) = String "-" s.
Proof. destruct s as [|c2 [|c3 s]]; reflexivity. Qed.

Lemma unsigned_digits c s :
  is_decimal_digit c = true ->
  JS.strip_sign (JS.trimStart (String c s)) = (1, String c s).
Proof.
  intros H. rewrite trimStart_digit by exact H. simpl.
  destruct (Ascii.eqb_spec c "-") as [->|]; [discriminate|].
  destruct (Ascii.eqb_spec c "+") as [->|]; [discriminate|]. reflexivity.
Qed.

Lemma string_of_uint_cons d :
  d <> Nil ->
  exists c s, NilEmpty.string_of_uint d = String c s /\ is_decimal_digit c = true.
Proof. destruct d; try congruence; intros _; simpl; eauto. Qed.

(** [parseInt] of a numeral, and of a numeral after a minus sign. *)
Lemma parseInt_uint d :
  d <> Nil ->
  JS.parseInt (NilEmpty.string_of_uint d) = Some (Z.of_uint d)
  /\ JS.parseInt (String "-" (NilEmpty.string_of_uint d)) = Some (- Z.of_uint d).
Proof.
  intros Hd. destruct (string_of_uint_cons d Hd) as (c & s & E & Hc).
  pose proof (all_chars_string_of_uint d) as Hall.
  pose proof (parse_digits_uint d Hd) as Hp.
  unfold JS.parseInt. split.
  - rewrite E, (unsigned_digits c s Hc), <- E.
    rewrite (strip_radix_prefix_digits _ Hall), Hp. f_equal; lia.
  - rewrite trimStart_minus.
    change (JS.strip_sign (String "-" (NilEmpty.string_of_uint d)))
      with (-1, NilEmpty.string_of_uint d).
    cbv beta iota.
    rewrite (strip_radix_prefix_digits _ Hall), Hp. f_equal; lia.
Qed.

(** [parseInt(String(n))] is [n]. *)
Lemma parseInt_string_of_number n :
  JS.parseInt (JS.string_of_number n) = Some n.
Proof.
  unfold JS.string_of_number.
  rewrite <- (DecimalZ.of_to n) at 2.
  destruct n as [|p|p]; simpl Z.to_int.
  - reflexivity.
  - unfold NilZero.string_of_int, NilZero.string_of_uint.
    pose proof (DecimalPos.Unsigned.to_uint_nonnil p) as Hnil.
    destruct (Pos.to_uint p) eqn:E; try congruence; rewrite <- E;
      (apply parseInt_uint; congruence).
  - unfold NilZero.string_of_int, NilZero.string_of_uint.
    pose proof (DecimalPos.Unsigned.to_uint_nonnil p) as Hnil.
    destruct (Pos.to_uint p) eqn:E; try congruence; rewrite <- E;
      (apply parseInt_uint; congruence).
Qed.

Lemma decimal_digit_not_underscore c :
  is_decimal_digit c = true -> negb (Ascii.eqb c "_") = true.
Proof. destruct (Ascii.eqb_spec c "_") as [->|]; [discriminate|reflexivity]. Qed.

Lemma string_of_number_no_underscore n :
  has_no "_" (JS.string_of_number n) = true.
Proof.
  assert (Hu : forall d, has_no "_" (NilEmpty.string_of_uint d) = true).
  { intros d. unfold has_no.
    apply (all_chars_impl is_decimal_digit); [apply decimal_digit_not_underscore|].
    apply all_chars_string_of_uint. }
  unfold JS.string_of_number.
  destruct n as [|p|p]; simpl Z.to_int; [reflexivity| |];
    unfold NilZero.string_of_int, NilZero.string_of_uint;
    destruct (Pos.to_uint p) eqn:E; try reflexivity; rewrite <- E;
    try apply Hu; unfold has_no; simpl; apply Hu.
Qed.

(** The number in a generated id is the counter it was generated from. *)
Lemma id_number_generated n :
  id_number ("player_" +:+ JS.string_of_number n) = Some n.
Proof.
  unfold id_number.
  change ("player_" +:+ JS.string_of_number n)
    with ("player" +:+ String "_" (JS.string_of_number n)).
  rewrite split_app_sep by reflexivity.
  rewrite split_has_no by apply string_of_number_no_underscore.
  simpl. apply parseInt_string_of_number.
Qed.

(** ** The id counter and the round trip through [toJSON] and [fromJSON] *)

(** The id counter never decreases, and after [fromJSON] it is above the
    number of every player's id. *)
Lemma bump_counter_ge c p : c <= bump_counter c p.
Proof.
  unfold bump_counter. destruct (id_number (id p)) as [n|]; [|lia].
  destruct (Z.geb_spec n c); lia.
Qed.

Lemma bump_counter_above c p n :
  id_number (id p) = Some n -> n < bump_counter c p.
Proof.
  unfold bump_counter. intros ->. destruct (Z.geb_spec n c); lia.
Qed.

Lemma fold_bump_counter_ge ps c : c <= fold_left bump_counter ps c.
Proof.
  revert c. induction ps as [|p ps IH]; intros c; simpl; [lia|].
  pose proof (bump_counter_ge c p). specialize (IH (bump_counter c p)). lia.
Qed.

Lemma fold_bump_counter_above ps c q n :
  In q ps -> id_number (id q) = Some n -> n < fold_left bump_counter ps c.
Proof.
  revert c. induction ps as [|p ps IH]; intros c; simpl; [tauto|].
  intros [->|Hin] Hn.
  - pose proof (bump_counter_above c q n Hn).
    pose proof (fold_bump_counter_ge ps (bump_counter c q)). lia.
  - now apply IH.
Qed.

Lemma step_counter_ge op w : playerIdCounter w <= playerIdCounter (step op w).
Proof.
  destruct op; simpl; try lia.
  apply fold_bump_counter_ge.
Qed.

Lemma run_counter_ge ops w : playerIdCounter w <= playerIdCounter (run ops w).
Proof.
  unfold run. revert w. induction ops as [|op ops IH]; intros w; simpl; [lia|].
  pose proof (step_counter_ge op w). specialize (IH (step op w)). lia.
Qed.

Lemma fromJSON_counter_above data w q n :
  In q (players (state (fromJSON data w))) ->
  id_number (id q) = Some n ->
  n < playerIdCounter (fromJSON data w).
Proof. simpl. apply fold_bump_counter_above. Qed.

Lemma addPlayer_id name w :
  id (snd (addPlayer name w)) = "player_" +:+ JS.string_of_number (playerIdCounter w).
Proof. reflexivity. Qed.

(** What comes back from a fresh container: [fromJSON] takes the players,
    the settings and the rounds as they are, and the mode and the round only
    when they are truthy. *)
Lemma assign_all_settings t u : assign_settings t (all_settings u) = u.
Proof. now destruct u. Qed.

Lemma fromJSON_toJSON_fields s w :
  players (state (fromJSON (toJSON s) w)) = players s
  /\ settings (state (fromJSON (toJSON s) w)) = settings s
  /\ rounds (state (fromJSON (toJSON s) w)) = rounds s
  /\ gameMode (state (fromJSON (toJSON s) w))
     = (if String.eqb (gameMode s) "" then gameMode (state w) else gameMode s)
  /\ currentRound (state (fromJSON (toJSON s) w))
     = (if currentRound s =? 0 then currentRound (state w) else currentRound s).
Proof.
  destruct s as [ps m st r rs]; simpl.
  rewrite assign_all_settings.
  unfold JS.truthy_string, JS.truthy_number.
  repeat split.
  - now destruct (String.eqb m "").
  - now destruct (r =? 0).
Qed.

Lemma fromJSON_toJSON_state s w :
  gameMode s <> "" -> currentRound s <> 0 ->
  state (fromJSON (toJSON s) w) = s.
Proof.
  intros Hm Hr.
  destruct (fromJSON_toJSON_fields s w) as (Hp & Hs & Hrs & Hmode & Hround).
  destruct (String.eqb_spec (gameMode s) "") as [|_]; [congruence|].
  destruct (Z.eqb_spec (currentRound s) 0) as [|_]; [congruence|].
  destruct (state (fromJSON (toJSON s) w)), s; simpl in *. congruence.
Qed.

(** The states a page reaches have a truthy mode and round: the constructor
    sets them so and every operation keeps them so, [fromJSON] included. *)
Lemma step_keeps_truthy_mode_and_round op w :
  sets_named_mode op ->
  truthy_mode_and_round (state w) -> truthy_mode_and_round (state (step op w)).
Proof.
  unfold truthy_mode_and_round. intros Hop [Hm Hr].
  destruct op; simpl in *; try (split; [assumption || discriminate|assumption || discriminate]).
  unfold JS.truthy_string, JS.truthy_number. split.
  - destruct (s_gameMode data) as [m|]; [|exact Hm].
    destruct (String.eqb_spec m ""); simpl; assumption.
  - destruct (s_currentRound data) as [r|]; [|exact Hr].
    destruct (Z.eqb_spec r 0); simpl; assumption.
Qed.

Lemma run_keeps_truthy_mode_and_round ops :
  Forall sets_named_mode ops ->
  truthy_mode_and_round (state (run ops initial_world)).
Proof.
  intros Hops. unfold run.
  assert (H0 : truthy_mode_and_round (state initial_world))
    by (split; discriminate).
  revert H0. generalize initial_world.
  induction Hops as [|op ops Hop Hops IH]; intros w Hw; simpl; [exact Hw|].
  apply IH. now apply step_keeps_truthy_mode_and_round.
Qed.

(** C5, as the code has it: [toJSON] followed by [fromJSON] into a fresh
    container gives back the players, the settings and the rounds of every
    state; it gives back the game mode when that is not the empty string and
    the current round when that is not 0, and leaves the ["custom"] and the 1
    of the fresh container otherwise.  So all five fields come back for a
    state whose mode is not empty and whose round is not 0, which is every
    state the container reaches from its constructor by operations that do
    not set the empty mode.  After any restore, a player added at any later
    time gets an id that differs from every restored id, with a number
    strictly greater than the number of every restored id that has one. *)
Theorem toJSON_fromJSON_roundtrip :
  (forall s c,
      players (state (fromJSON (toJSON s) (mkWorld new_GameState c))) = players s
      /\ settings (state (fromJSON (toJSON s) (mkWorld new_GameState c))) = settings s
      /\ rounds (state (fromJSON (toJSON s) (mkWorld new_GameState c))) = rounds s
      /\ gameMode (state (fromJSON (toJSON s) (mkWorld new_GameState c)))
         = (if String.eqb (gameMode s) "" then "custom" else gameMode s)
      /\ currentRound (state (fromJSON (toJSON s) (mkWorld new_GameState c)))
         = (if currentRound s =? 0 then 1 else currentRound s))
  /\ (forall s c,
      gameMode s <> "" -> currentRound s <> 0 ->
      state (fromJSON (toJSON s) (mkWorld new_GameState c)) = s)
  /\ (forall ops c,
      Forall sets_named_mode ops ->
      state (fromJSON (toJSON (state (run ops initial_world))) (mkWorld new_GameState c))
      = state (run ops initial_world))
  /\ (forall data w ops name q,
      In q (players (state (fromJSON data w))) ->
      let p := snd (addPlayer name (run ops (fromJSON data w))) in
      id q <> id p
      /\ forall n, id_number (id q) = Some n ->
                   exists m, id_number (id p) = Some m /\ n < m).
Proof.
  split; [|split; [|split]].
  - intros s c. exact (fromJSON_toJSON_fields s (mkWorld new_GameState c)).
  - intros s c. apply fromJSON_toJSON_state.
  - intros ops c Hops.
    destruct (run_keeps_truthy_mode_and_round ops Hops) as [Hm Hr].
    now apply fromJSON_toJSON_state.
  - intros data w ops name q Hq p.
    assert (Hp : id_number (id p) = Some (playerIdCounter (run ops (fromJSON data w)))).
    { subst p. rewrite addPlayer_id. apply id_number_generated. }
    assert (Habove : forall n, id_number (id q) = Some n ->
                               n < playerIdCounter (run ops (fromJSON data w))).
    { intros n Hn. pose proof (fromJSON_counter_above data w q n Hq Hn).
      pose proof (run_counter_ge ops (fromJSON data w)). lia. }
    split.
    + intros E. rewrite <- E in Hp. specialize (Habove _ Hp). lia.
    + intros n Hn. eexists. split; [exact Hp|]. now apply Habove.
Qed.

(** The round trip of a cribbage game, of the state after a run from the
    constructor, and the id of a player added after a restore. *)
Lemma toJSON_fromJSON_roundtrip_witness :
  state (fromJSON (toJSON cribbage_example) (mkWorld new_GameState 0)) = cribbage_example
  /\ (let ops := [OpAddPlayer None; OpSetGameMode "pooch"; OpUpdatePlayerScore "player_0" 3] in
      state (fromJSON (toJSON (state (run ops initial_world))) (mkWorld new_GameState 5))
      = state (run ops initial_world))
  /\ (let p := snd (addPlayer None
                      (run [OpAddPlayer (Some "Zed"); OpResetGame]
                         (fromJSON (toJSON cribbage_example) initial_world))) in
      id (mkPlayer "player_1" "Player 2" 0 0 ∅) <> id p
      /\ forall n, id_number (id (mkPlayer "player_1" "Player 2" 0 0 ∅)) = Some n ->
                   exists m, id_number (id p) = Some m /\ n < m).
Proof.
  pose proof toJSON_fromJSON_roundtrip as (_ & Hstate & Hrun & Hid).
  split; [|split].
  - apply Hstate; discriminate.
  - apply Hrun. repeat constructor. discriminate.
  - apply (Hid (toJSON cribbage_example) initial_world).
    simpl. right. left. reflexivity.
Defined.

(** C5 as stated fails for a state the container reaches: after
    [setGameMode('')] the game mode is the empty string, and the round trip
    into a fresh container gives ["custom"]. *)
Lemma toJSON_fromJSON_loses_empty_mode :
  empty_mode_example = state (run [OpSetGameMode ""] (init "" None))
  /\ gameMode empty_mode_example = ""
  /\ gameMode (state (fromJSON (toJSON empty_mode_example) (mkWorld new_GameState 0)))
     = "custom"
  /\ state (fromJSON (toJSON empty_mode_example) (mkWorld new_GameState 0))
     <> empty_mode_example.
Proof.
  split; [reflexivity|]. split; [reflexivity|]. split; [reflexivity|].
  intros E. apply (f_equal gameMode) in E. discriminate E.
Qed.

(** ** The urlencoded format: parsing what the serializer wrote *)

Module URLSearchParamsFacts.
Import URLSearchParams.

(** The serializer works byte by byte, and writes encoded characters only. *)
Lemma byte_serialize_cons c s :
  byte_serialize (String c s) = byte_serialize (String c "") +:+ byte_serialize s.
Proof.
  simpl. destruct (Ascii.eqb c " "); [reflexivity|].
  destruct (is_unreserved c); reflexivity.
Qed.

Lemma byte_serialize_byte_chars c :
  all_chars is_encoded_char (byte_serialize (String c "")) = true.
Proof. each_byte c; reflexivity. Qed.

Lemma byte_serialize_chars s :
  all_chars is_encoded_char (byte_serialize s) = true.
Proof.
  induction s as [|c s IH]; [reflexivity|].
  rewrite byte_serialize_cons, all_chars_app, byte_serialize_byte_chars, IH.
  reflexivity.
Qed.

Lemma encoded_char_is_not c sep :
  is_encoded_char sep = false ->
  is_encoded_char c = true -> negb (Ascii.eqb c sep) = true.
Proof.
  intros Hsep Hc. destruct (Ascii.eqb_spec c sep) as [->|]; [congruence|reflexivity].
Qed.

Lemma byte_serialize_has_no sep s :
  is_encoded_char sep = false -> has_no sep (byte_serialize s) = true.
Proof.
  intros Hsep. unfold has_no.
  apply (all_chars_impl is_encoded_char).
  - intros c. now apply encoded_char_is_not.
  - apply byte_serialize_chars.
Qed.

(** Decoding undoes the serializer, byte by byte. *)
Lemma decode_byte c s :
  decode_component (byte_serialize (String c "") +:+ s)
  = String c (decode_component s).
Proof. unfold decode_component. each_byte c; reflexivity. Qed.

Lemma decode_byte_serialize s : decode_component (byte_serialize s) = s.
Proof.
  induction s as [|c s IH]; [reflexivity|].
  now rewrite byte_serialize_cons, decode_byte, IH.
Qed.

Lemma split_pair_app a b :
  has_no "=" a = true -> split_pair (a +:+ String "=" b) = (a, b).
Proof.
  unfold has_no. induction a as [|c a IH]; simpl; [reflexivity|].
  intros H. apply andb_prop in H as [Hc Ha].
  apply negb_true_iff in Hc. rewrite Hc, IH by exact Ha. reflexivity.
Qed.

Lemma serialize_pair_has_no sep p :
  is_encoded_char sep = false -> Ascii.eqb "=" sep = false ->
  has_no sep (serialize_pair p) = true.
Proof.
  intros Hsep Heq. unfold serialize_pair, has_no.
  change ("=" +:+ ?x) with (String "=" x).
  rewrite all_chars_app.
  change (all_chars ?P (String ?c ?x)) with (P c && all_chars P x).
  cbv beta. rewrite Heq.
  fold (has_no sep (byte_serialize (fst p))).
  fold (has_no sep (byte_serialize (snd p))).
  now rewrite !byte_serialize_has_no.
Qed.

Lemma serialize_pair_truthy p : JS.truthy_string (serialize_pair p) = true.
Proof.
  unfold serialize_pair. destruct (byte_serialize (fst p)); reflexivity.
Qed.

Lemma parse_serialize_pair p :
  (let '(n, v) := split_pair (serialize_pair p) in
   Some (decode_component n, decode_component v)) = Some p.
Proof.
  unfold serialize_pair. change ("=" +:+ ?x) with (String "=" x).
  rewrite split_pair_app by (now apply byte_serialize_has_no).
  rewrite !decode_byte_serialize. now destruct p.
Qed.

Lemma parse_cons_pair p rest :
  parse (serialize_pair p +:+ String "&" rest) = p :: parse rest.
Proof.
  unfold parse.
  rewrite split_app_sep by (now apply serialize_pair_has_no).
  simpl. rewrite serialize_pair_truthy, parse_serialize_pair. reflexivity.
Qed.

Lemma parse_one_pair p : parse (serialize_pair p) = [p].
Proof.
  unfold parse.
  rewrite split_has_no by (now apply serialize_pair_has_no).
  simpl. rewrite serialize_pair_truthy, parse_serialize_pair. reflexivity.
Qed.

(** Parsing what the serializer wrote gives the parameter list back. *)
Lemma parse_serialize l : parse (serialize l) = l.
Proof.
  unfold serialize.
  induction l as [|p l IH]; [reflexivity|].
  destruct l as [|q l].
  - apply parse_one_pair.
  - change (JS.join "&" (map serialize_pair (p :: q :: l)))
      with (serialize_pair p +:+ String "&" (JS.join "&" (map serialize_pair (q :: l)))).
    now rewrite parse_cons_pair, IH.
Qed.

Lemma serialize_head l :
  match serialize l with
  | EmptyString => l = []
  | String c _ => l <> [] /\ Ascii.eqb c "?" = false
  end.
Proof.
  unfold serialize. destruct l as [|p l]; [reflexivity|].
  assert (H : has_no "?" (JS.join "&" (map serialize_pair (p :: l))) = true).
  { clear. revert p. induction l as [|q l IH]; intros p.
    - simpl. now apply serialize_pair_has_no.
    - change (JS.join "&" (map serialize_pair (p :: q :: l)))
        with (serialize_pair p +:+ String "&" (JS.join "&" (map serialize_pair (q :: l)))).
      unfold has_no. rewrite all_chars_app.
      change (all_chars ?P (String ?c ?x)) with (P c && all_chars P x).
      cbv beta. change (Ascii.eqb "&" "?") with false.
      fold (has_no "?" (serialize_pair p)).
      fold (has_no "?" (JS.join "&" (map serialize_pair (q :: l)))).
      now rewrite serialize_pair_has_no, IH. }
  assert (Hne : JS.join "&" (map serialize_pair (p :: l)) <> "").
  { destruct l; simpl; unfold serialize_pair;
      destruct (byte_serialize (fst p)); discriminate. }
  destruct (JS.join "&" (map serialize_pair (p :: l))) as [|c s]; [congruence|].
  split; [discriminate|].
  unfold has_no in H. simpl in H. apply andb_prop in H as [H _].
  now apply negb_true_iff in H.
Qed.

(** [new URLSearchParams(params.toString())] is [params]. *)
Lemma new_toString l : new (toString l) = l.
Proof.
  unfold toString, new, strip_question.
  pose proof (serialize_head l) as H.
  destruct (serialize l) as [|c s] eqn:E.
  - rewrite <- E. apply parse_serialize.
  - destruct H as [_ ->]. rewrite <- E. apply parse_serialize.
Qed.

Lemma new_question_toString l : new (String "?" (toString l)) = l.
Proof. unfold toString, new. simpl. apply parse_serialize. Qed.

(** Only the empty parameter list serializes to the empty string. *)
Lemma toString_empty l : String.eqb (toString l) "" = true <-> l = [].
Proof.
  unfold toString. pose proof (serialize_head l) as H.
  destruct (serialize l); simpl.
  - tauto.
  - split; [discriminate|]. intros ->. now destruct H.
Qed.

(** The parser finds no parameter exactly in a string of separators. *)
Lemma parse_nil_iff s :
  parse s = [] <-> all_chars (fun c => Ascii.eqb c "&") s = true.
Proof.
  unfold parse. induction s as [|c s IH]; simpl; [tauto|].
  destruct (Ascii.eqb c "&"); simpl; [exact IH|].
  pose proof (split_not_nil "&" s) as Hne.
  destruct (JS.split "&" s) as [|h t]; [congruence|].
  change (omap ?f (String c h :: t))
    with (match f (String c h) with Some y => y :: omap f t | None => omap f t end).
  cbv beta. change (JS.truthy_string (String c h)) with true. cbv iota.
  destruct (split_pair (String c h)). split; discriminate.
Qed.

End URLSearchParamsFacts.

(** ** What [deserializeFromURL] returns *)

Lemma deserializeFromURL_None search :
  deserializeFromURL search = None <-> URLSearchParams.new search = [].
Proof.
  unfold deserializeFromURL.
  pose proof (URLSearchParamsFacts.toString_empty (URLSearchParams.new search)) as H.
  destruct (String.eqb (URLSearchParams.toString (URLSearchParams.new search)) ""); split; intros H'.
  - now apply H.
  - reflexivity.
  - discriminate.
  - apply H in H'. discriminate.
Qed.

(** The players [deserializeFromURL] builds start from nothing. *)
Lemma imap_url_player_fresh names k :
  Forall (fun p => score p = 0 /\ position p = 0 /\ roundData p = ∅)
         (imap (fun i => url_player (k + i)) names).
Proof.
  revert k. induction names as [|n names IH]; intros k; simpl; constructor.
  - repeat split.
  - rewrite (imap_ext _ (fun i => url_player (S k + i))); [apply IH|].
    intros i x _. simpl. f_equal. lia.
Qed.

Lemma map_name_imap_url_player names k :
  map name (imap (fun i => url_player (k + i)) names) = map JS.trim names.
Proof.
  revert k. induction names as [|n names IH]; intros k; simpl; [reflexivity|].
  f_equal. rewrite (imap_ext _ (fun i => url_player (S k + i))); [apply IH|].
  intros i x _. simpl. f_equal. lia.
Qed.

(** What [deserializeFromURL] returns, field by field. *)
Lemma deserializeFromURL_Some search st :
  deserializeFromURL search = Some st ->
  let params := URLSearchParams.new search in
  params <> []
  /\ gameMode st = JS.or_string (URLSearchParams.get "game" params) "custom"
  /\ colorTheme (settings st) = JS.or_string (URLSearchParams.get "theme" params) "purple"
  /\ showRounds (settings st) = not_false (URLSearchParams.get "showRounds" params)
  /\ numberOfRounds (settings st)
     = JS.Num (JS.or_number
                 (JS.parseInt (JS.string_of_nullable (URLSearchParams.get "numRounds" params)))
                 10)
  /\ showBids (settings st) = not_false (URLSearchParams.get "showBids" params)
  /\ showTricks (settings st) = not_false (URLSearchParams.get "showTricks" params)
  /\ showDeal (settings st) = not_false (URLSearchParams.get "showDeal" params)
  /\ currentRound st = 1
  /\ rounds st = []
  /\ players st
     = (if JS.truthy_string (default "" (URLSearchParams.get "players" params))
        then imap url_player (JS.split "," (default "" (URLSearchParams.get "players" params)))
        else []).
Proof.
  intros H params.
  assert (Hne : params <> []).
  { intros E. apply deserializeFromURL_None in E. congruence. }
  split; [exact Hne|].
  unfold deserializeFromURL in H. fold params in H.
  destruct (String.eqb (URLSearchParams.toString params) ""); [discriminate|].
  injection H as <-.
  destruct (JS.truthy_string (default "" (URLSearchParams.get "players" params))); simpl;
    repeat split; reflexivity.
Qed.

(** ** The URL codec: defaults, and what a round trip keeps *)

Lemma not_false_false x : not_false x = false <-> x = Some "false".
Proof.
  unfold not_false. destruct x as [v|]; [|split; discriminate].
  destruct (String.eqb_spec v "false") as [->|Hne]; simpl.
  - tauto.
  - split; [discriminate|]. intros [= E]. congruence.
Qed.

Lemma or_number_cases x d :
  (forall n, x = Some n -> n <> 0 -> JS.or_number x d = n)
  /\ (x = None -> JS.or_number x d = d)
  /\ (x = Some 0 -> JS.or_number x d = d)
  /\ (d <> 0 -> JS.or_number x d <> 0).
Proof.
  unfold JS.or_number, JS.truthy_number. repeat split.
  - intros n -> Hn. now destruct (Z.eqb_spec n 0).
  - now intros ->.
  - now intros ->.
  - intros Hd. destruct x as [n|]; [|exact Hd].
    now destruct (Z.eqb_spec n 0).
Qed.

(** C7, as the code has it: [deserializeFromURL] returns [null] exactly
    when the query string holds no parameter (it is empty, or has nothing but
    a leading [?] and [&] separators); otherwise each boolean setting is true
    unless its parameter is the literal string ["false"], and
    [numberOfRounds] is an integer other than 0: the integer [parseInt] reads
    from [numRounds] when that is not 0 (a negative one included), and 10
    when [numRounds] is missing, is not numeric or reads as 0. *)
Theorem deserializeFromURL_defaults (search : string) :
  (deserializeFromURL search = None
   <-> all_chars (fun c => Ascii.eqb c "&") (URLSearchParams.strip_question search) = true)
  /\ (search = "" -> deserializeFromURL search = None)
  /\ (forall st,
      deserializeFromURL search = Some st ->
      let params := URLSearchParams.new search in
      let numRounds := JS.parseInt (JS.string_of_nullable (URLSearchParams.get "numRounds" params)) in
      (showRounds (settings st) = false <-> URLSearchParams.get "showRounds" params = Some "false")
      /\ (showBids (settings st) = false <-> URLSearchParams.get "showBids" params = Some "false")
      /\ (showTricks (settings st) = false <-> URLSearchParams.get "showTricks" params = Some "false")
      /\ (showDeal (settings st) = false <-> URLSearchParams.get "showDeal" params = Some "false")
      /\ (exists n, numberOfRounds (settings st) = JS.Num n /\ n <> 0)
      /\ (forall n, numRounds = Some n -> n <> 0 -> numberOfRounds (settings st) = JS.Num n)
      /\ (numRounds = Some 0 -> numberOfRounds (settings st) = JS.Num 10)
      /\ (numRounds = None -> numberOfRounds (settings st) = JS.Num 10)
      /\ (URLSearchParams.get "numRounds" params = None ->
          numberOfRounds (settings st) = JS.Num 10)).
Proof.
  split; [|split].
  - rewrite deserializeFromURL_None. apply URLSearchParamsFacts.parse_nil_iff.
  - now intros ->.
  - intros st Hst params numRounds.
    destruct (deserializeFromURL_Some search st Hst)
      as (_ & _ & _ & HsR & HnR & HsB & HsT & HsD & _).
    fold params in HsR, HnR, HsB, HsT, HsD. fold numRounds in HnR.
    rewrite HsR, HsB, HsT, HsD, HnR, !not_false_false.
    destruct (or_number_cases numRounds 10) as (H1 & H2 & H3 & H4).
    do 4 (split; [tauto|]).
    split; [|split; [|split; [|split]]].
    + eexists. split; [reflexivity|]. apply H4. discriminate.
    + intros n En Hn. now rewrite (H1 n En Hn).
    + intros E. now rewrite (H3 E).
    + intros E. now rewrite (H2 E).
    + intros E. rewrite H2; [reflexivity|]. unfold numRounds. now rewrite E.
Qed.

Lemma deserializeFromURL_defaults_witness :
  deserializeFromURL "" = None
  /\ (let st := mkGameState [] "custom" (mkSettings "purple" true (JS.Num 7) false true true) 1 [] in
      let params := URLSearchParams.new "?showBids=false&numRounds=7&showDeal=no" in
      let numRounds :=
        JS.parseInt (JS.string_of_nullable (URLSearchParams.get "numRounds" params)) in
      (showRounds (settings st) = false <-> URLSearchParams.get "showRounds" params = Some "false")
      /\ (showBids (settings st) = false <-> URLSearchParams.get "showBids" params = Some "false")
      /\ (showTricks (settings st) = false <-> URLSearchParams.get "showTricks" params = Some "false")
      /\ (showDeal (settings st) = false <-> URLSearchParams.get "showDeal" params = Some "false")
      /\ (exists n, numberOfRounds (settings st) = JS.Num n /\ n <> 0)
      /\ (forall n, numRounds = Some n -> n <> 0 -> numberOfRounds (settings st) = JS.Num n)
      /\ (numRounds = Some 0 -> numberOfRounds (settings st) = JS.Num 10)
      /\ (numRounds = None -> numberOfRounds (settings st) = JS.Num 10)
      /\ (URLSearchParams.get "numRounds" params = None ->
          numberOfRounds (settings st) = JS.Num 10)).
Proof.
  split.
  - exact (proj1 (proj2 (deserializeFromURL_defaults "")) eq_refl).
  - exact (proj2 (proj2 (deserializeFromURL_defaults "?showBids=false&numRounds=7&showDeal=no"))
             _ eq_refl).
Defined.

(** C7 as stated fails: [numRounds=-5] gives [numberOfRounds = -5], which is
    not at least 1, and the non-empty query strings [?&] and [&] give
    [null]. *)
Lemma deserializeFromURL_negative_rounds :
  (exists st,
      deserializeFromURL "?numRounds=-5" = Some st
      /\ URLSearchParams.get "numRounds" (URLSearchParams.new "?numRounds=-5") = Some "-5"
      /\ numberOfRounds (settings st) = JS.Num (-5)
      /\ (exists n, numberOfRounds (settings st) = JS.Num n /\ n < 1))
  /\ (deserializeFromURL "?&" = None /\ "?&" <> "")
  /\ (deserializeFromURL "&" = None /\ "&" <> "").
Proof.
  split; [|split].
  - eexists. split; [reflexivity|]. split; [reflexivity|]. split; [reflexivity|].
    exists (-5). split; [reflexivity|lia].
  - split; [reflexivity|discriminate].
  - split; [reflexivity|discriminate].
Qed.

(** A URL state is restored alone: [init] takes its players as they are. *)
Lemma init_from_url search st saved :
  deserializeFromURL search = Some st ->
  players (state (init search saved)) = players st
  /\ gameMode (state (init search saved)) = gameMode st.
Proof.
  intros H. unfold init. rewrite H. simpl. split; [reflexivity|].
  destruct (deserializeFromURL_Some search st H) as (_ & Hm & _).
  rewrite Hm. unfold JS.or_string.
  destruct (URLSearchParams.get "game" (URLSearchParams.new search)) as [m|]; [|reflexivity].
  destruct (JS.truthy_string m) eqn:E; [now rewrite E|reflexivity].
Qed.

(** C10: there is a non-empty query string without a [players] parameter
    ([?theme=dark]) for which [deserializeFromURL] returns a snapshot with
    no players; [init] then restores a state with no players, whatever the
    storage holds, and does not add the two default players it adds when
    there is neither a URL state nor a saved one. *)
Theorem url_without_players_starts_empty :
  exists search st,
    search <> ""
    /\ URLSearchParams.get "players" (URLSearchParams.new search) = None
    /\ deserializeFromURL search = Some st
    /\ players st = []
    /\ (forall saved, players (state (init search saved)) = [])
    /\ map name (players (state (init "" None))) = ["Player 1"; "Player 2"].
Proof.
  exists "?theme=dark". eexists.
  split; [discriminate|]. split; [reflexivity|]. split; [reflexivity|].
  split; [reflexivity|]. split; [|reflexivity].
  intros saved. now rewrite (proj1 (init_from_url "?theme=dark" _ saved eq_refl)).
Qed.

(** Names that come back from the [players] parameter as they went in. *)
Lemma join_empty c l :
  JS.join (String c "") l = "" -> l = [] \/ l = [""].
Proof.
  destruct l as [|x [|y l]]; auto.
  - simpl. intros ->. now right.
  - change (JS.join (String c "") (x :: y :: l))
      with (x +:+ String c (JS.join (String c "") (y :: l))).
    destruct x; discriminate.
Qed.

Lemma map_trim_id l : Forall (fun n => JS.trim n = n) l -> map JS.trim l = l.
Proof. induction 1 as [|x l Hx _ IH]; simpl; congruence. Qed.

Lemma serializeToURL_params gs :
  serializeToURL gs
  = URLSearchParams.toString
      (("game", gameMode gs)
         :: (if (0 <? length (players gs))%nat
             then [("players", JS.join "," (map name (players gs)))] else [])
         ++ [("theme", colorTheme (settings gs));
             ("showRounds", JS.string_of_boolean (showRounds (settings gs)));
             ("numRounds", JS.string_of_value (numberOfRounds (settings gs)));
             ("showBids", JS.string_of_boolean (showBids (settings gs)));
             ("showTricks", JS.string_of_boolean (showTricks (settings gs)));
             ("showDeal", JS.string_of_boolean (showDeal (settings gs)))]).
Proof.
  unfold serializeToURL. destruct (0 <? length (players gs))%nat; reflexivity.
Qed.

Lemma serializeToURL_players gs :
  URLSearchParams.get "players" (URLSearchParams.new (serializeToURL gs))
  = if (0 <? length (players gs))%nat
    then Some (JS.join "," (map name (players gs))) else None.
Proof.
  rewrite serializeToURL_params, URLSearchParamsFacts.new_toString.
  destruct (0 <? length (players gs))%nat; reflexivity.
Qed.

Lemma serializeToURL_not_null gs :
  exists st, deserializeFromURL (serializeToURL gs) = Some st.
Proof.
  destruct (deserializeFromURL (serializeToURL gs)) as [st|] eqn:E; [eauto|].
  apply deserializeFromURL_None in E.
  rewrite serializeToURL_params, URLSearchParamsFacts.new_toString in E.
  discriminate.
Qed.

Lemma question_mark_dropped gs :
  deserializeFromURL (String "?" (serializeToURL gs))
  = deserializeFromURL (serializeToURL gs).
Proof.
  unfold deserializeFromURL.
  replace (URLSearchParams.new (String "?" (serializeToURL gs)))
    with (URLSearchParams.new (serializeToURL gs)); [reflexivity|].
  rewrite serializeToURL_params, URLSearchParamsFacts.new_toString.
  symmetry. apply URLSearchParamsFacts.new_question_toString.
Qed.

(** C6, as the code has it: decoding the query string a state is encoded to
    (with or without its leading [?]) gives a snapshot in which every
    player has score 0, position 0 and no round data, the current round is 1
    and there are no rounds; the names come back in order when no name has a
    comma, no name starts or ends with white space (a code point [trim]
    strips: the ASCII ones, U+00A0, U+FEFF, the line separators and the
    other space code points) and the list is not the single empty name. *)
Theorem url_round_trip_resets_scores (gs : GameState) :
  exists st,
    deserializeFromURL (serializeToURL gs) = Some st
    /\ deserializeFromURL (String "?" (serializeToURL gs)) = Some st
    /\ Forall (fun p => score p = 0 /\ position p = 0 /\ roundData p = ∅) (players st)
    /\ currentRound st = 1
    /\ rounds st = []
    /\ (names_survive (map name (players gs)) ->
        map name (players st) = map name (players gs)).
Proof.
  destruct (serializeToURL_not_null gs) as [st Hst]. exists st.
  destruct (deserializeFromURL_Some _ st Hst)
    as (_ & _ & _ & _ & _ & _ & _ & _ & Hround & Hrounds & Hplayers).
  rewrite serializeToURL_players in Hplayers.
  split; [exact Hst|]. split; [now rewrite question_mark_dropped|].
  split; [|split; [exact Hround|split; [exact Hrounds|]]].
  - rewrite Hplayers.
    destruct (JS.truthy_string _); [|constructor].
    apply (imap_url_player_fresh _ 0).
  - intros [Hne Hall]. rewrite Hplayers.
    destruct (players gs) as [|p ps] eqn:Eps; [reflexivity|].
    change (0 <? length (p :: ps))%nat with true. cbv iota.
    set (names := map name (p :: ps)) in *.
    change (default "" (Some ?x)) with x.
    assert (Hjoin : JS.truthy_string (JS.join "," names) = true).
    { unfold JS.truthy_string.
      destruct (String.eqb_spec (JS.join "," names) "") as [E|]; [|reflexivity].
      apply join_empty in E as [E|E]; [discriminate|congruence]. }
    rewrite Hjoin, split_join.
    + etransitivity; [exact (map_name_imap_url_player names 0)|].
      apply map_trim_id.
      eapply List.Forall_impl; [|exact Hall]. now intros n [_ Hn].
    + discriminate.
    + eapply List.Forall_impl; [|exact Hall]. now intros n [Hn _].
Qed.

Lemma url_round_trip_resets_scores_witness :
  exists st,
    deserializeFromURL (serializeToURL cribbage_example) = Some st
    /\ Forall (fun p => score p = 0 /\ position p = 0 /\ roundData p = ∅) (players st)
    /\ map name (players st) = ["Player 1"; "Player 2"].
Proof.
  destruct (url_round_trip_resets_scores cribbage_example)
    as (st & H1 & _ & H3 & _ & _ & H6).
  exists st. split; [exact H1|]. split; [exact H3|].
  apply H6. split; [discriminate|]. repeat constructor.
Defined.

(** C6 as stated fails on the names: a name with a comma comes back as two
    players, a name that ends in a space or in a no-break space comes back
    trimmed, and a single player without a name comes back as no player. *)
Lemma url_round_trip_changes_names :
  (exists st,
      deserializeFromURL (serializeToURL comma_example) = Some st
      /\ map name (players comma_example) = ["Smith, Ann"]
      /\ map name (players st) = ["Smith"; "Ann"]
      /\ map name (players st) <> map name (players comma_example))
  /\ (exists st,
      deserializeFromURL (serializeToURL space_example) = Some st
      /\ map name (players space_example) = ["Ann "; "Bob"]
      /\ map name (players st) = ["Ann"; "Bob"]
      /\ map name (players st) <> map name (players space_example))
  /\ (exists st,
      deserializeFromURL (serializeToURL no_break_space_example) = Some st
      /\ map name (players no_break_space_example) = ["Ann" +:+ no_break_space]
      /\ map name (players st) = ["Ann"]
      /\ map name (players st) <> map name (players no_break_space_example))
  /\ (exists st,
      deserializeFromURL (serializeToURL unnamed_example) = Some st
      /\ map name (players unnamed_example) = [""]
      /\ players st = []
      /\ map name (players st) <> map name (players unnamed_example)).
Proof.
  split; [|split; [|split]]; eexists; (split; [vm_compute; reflexivity|]);
    repeat split; discriminate.
Qed.

(** * Further properties of the code *)

(** ** More on players found and changed in place *)

Lemma set_players_same s : set_players (players s) s = s.
Proof. now destruct s. Qed.

Lemma find_player_None playerId ps :
  find_player playerId ps = None <->
  Forall (fun q => String.eqb (id q) playerId = false) ps.
Proof.
  unfold find_player. induction ps as [|q ps IH]; simpl.
  - split; [constructor|reflexivity].
  - destruct (String.eqb (id q) playerId) eqn:E.
    + split; [discriminate|]. intros H. inversion H; congruence.
    + rewrite IH. split; [now constructor|]. intros H. now inversion H.
Qed.

Lemma filter_absent playerId ps :
  find_player playerId ps = None ->
  List.filter (fun p => negb (String.eqb (id p) playerId)) ps = ps.
Proof.
  intros H. apply find_player_None in H.
  induction H as [|q ps Hq _ IH]; simpl; [reflexivity|].
  now rewrite Hq, IH.
Qed.

(** The player [find] returns is the first with the id: the players before
    it have other ids, and a method changes that player alone. *)
Lemma modify_player_split playerId ps p :
  find_player playerId ps = Some p ->
  exists before after,
    ps = before ++ p :: after
    /\ Forall (fun q => id q <> playerId) before
    /\ forall f, modify_player playerId f ps = before ++ f p :: after.
Proof.
  unfold find_player. induction ps as [|q ps IH]; simpl; [discriminate|].
  destruct (String.eqb_spec (id q) playerId) as [E|E]; intros H.
  - injection H as ->. exists [], ps. repeat split. constructor.
  - destruct (IH H) as (before & after & -> & Hb & Hm).
    exists (q :: before), after. repeat split.
    + now constructor.
    + intros f. simpl. now rewrite Hm.
Qed.

(** A method that does not find its player changes nothing. *)
Lemma methods_without_player playerId s :
  find_player playerId (players s) = None ->
  (forall updates, updatePlayer playerId updates s = s)
  /\ (forall delta, updatePlayerScore playerId delta s = s)
  /\ (forall new_score, setPlayerScore playerId new_score s = s)
  /\ (forall round data, updateRoundData playerId round data s = s).
Proof.
  intros H.
  unfold updatePlayer, updatePlayerScore, setPlayerScore, updateRoundData.
  repeat split; intros; rewrite modify_player_absent by exact H;
    apply set_players_same.
Qed.

(** X1: a method called with an id that no player has changes nothing:
    [updatePlayer], [updatePlayerScore], [setPlayerScore], [updateRoundData]
    and [removePlayer] return the state as it was, and the handler of the
    Pooch inputs throws. *)
Theorem missing_player_is_no_op (playerId : string) (s : GameState) :
  find_player playerId (players s) = None ->
  (forall updates, updatePlayer playerId updates s = s)
  /\ (forall delta, updatePlayerScore playerId delta s = s)
  /\ (forall new_score, setPlayerScore playerId new_score s = s)
  /\ (forall round data, updateRoundData playerId round data s = s)
  /\ removePlayer playerId s = s
  /\ (forall round isBid value,
        handlePlayerContainerChange playerId round isBid value s = None).
Proof.
  intros H.
  destruct (methods_without_player playerId s H) as (H1 & H2 & H3 & H4).
  repeat split; auto.
  - unfold removePlayer. rewrite filter_absent by exact H.
    apply set_players_same.
  - intros. unfold handlePlayerContainerChange. now rewrite H.
Qed.

Lemma missing_player_is_no_op_witness :
  updatePlayerScore "player_7" 5 custom_example = custom_example
  /\ removePlayer "player_7" custom_example = custom_example.
Proof.
  pose proof (missing_player_is_no_op "player_7" custom_example eq_refl)
    as (_ & Hscore & _ & _ & Hremove & _).
  split; [apply Hscore|exact Hremove].
Defined.

(** X2: [updatePlayerScore] and [setPlayerScore] change the first player
    with the id and nothing else: the players before it (none of which has
    the id) and after it (even with the same id) stay, and of the player
    only the score, and in cribbage mode the position, are written. *)
Theorem score_mutation_changes_one_player (playerId : string) (s : GameState) (p : Player) :
  find_player playerId (players s) = Some p ->
  exists before after,
    players s = before ++ p :: after
    /\ Forall (fun q => id q <> playerId) before
    /\ (forall delta,
          updatePlayerScore playerId delta s
          = set_players
              (before ++
               mkPlayer (id p) (name p) (Z.max 0 (score p + delta))
                 (if String.eqb (gameMode s) "cribbage"
                  then Z.max 0 (score p + delta) else position p)
                 (roundData p) :: after) s)
    /\ (forall new_score,
          setPlayerScore playerId new_score s
          = set_players
              (before ++
               mkPlayer (id p) (name p) (Z.max 0 new_score)
                 (if String.eqb (gameMode s) "cribbage"
                  then Z.max 0 new_score else position p)
                 (roundData p) :: after) s).
Proof.
  intros Hf.
  destruct (modify_player_split playerId (players s) p Hf)
    as (before & after & Hps & Hb & Hm).
  exists before, after. split; [exact Hps|]. split; [exact Hb|].
  split; intros v.
  - unfold updatePlayerScore. rewrite Hm. cbv beta zeta.
    unfold set_position, set_score; simpl.
    destruct (String.eqb (gameMode s) "cribbage");
      destruct (score p + v <? 0) eqn:E; simpl;
      (apply Z.ltb_lt in E || apply Z.ltb_ge in E);
      (rewrite Z.max_l by lia) || (rewrite Z.max_r by lia); reflexivity.
  - unfold setPlayerScore. rewrite Hm. cbv beta zeta.
    destruct (String.eqb (gameMode s) "cribbage"); reflexivity.
Qed.

Lemma score_mutation_changes_one_player_witness :
  exists before after,
    players cribbage_example = before ++ mkPlayer "player_1" "Player 2" 0 0 ∅ :: after
    /\ Forall (fun q => id q <> "player_1") before
    /\ updatePlayerScore "player_1" 7 cribbage_example
       = set_players (before ++ mkPlayer "player_1" "Player 2" 7 7 ∅ :: after) cribbage_example.
Proof.
  destruct (score_mutation_changes_one_player "player_1" cribbage_example
              (mkPlayer "player_1" "Player 2" 0 0 ∅) eq_refl)
    as (before & after & H1 & H2 & H3 & _).
  exists before, after. split; [exact H1|]. split; [exact H2|]. exact (H3 7).
Defined.

(** ** [removePlayer] *)

Lemma filter_other_ids_sublist playerId ps :
  sublist (List.filter (fun p => negb (String.eqb (id p) playerId)) ps) ps.
Proof.
  induction ps as [|q ps IH]; simpl; [constructor|].
  destruct (String.eqb (id q) playerId); simpl; now constructor.
Qed.

Lemma filter_unique_id playerId ps p :
  List.NoDup (map id ps) ->
  find_player playerId ps = Some p ->
  length ps = S (length (List.filter (fun q => negb (String.eqb (id q) playerId)) ps)).
Proof.
  unfold find_player. induction ps as [|q ps IH]; simpl; [discriminate|].
  intros Hnd Hf. apply List.NoDup_cons_iff in Hnd as [Hq Hnd].
  destruct (String.eqb_spec (id q) playerId) as [E|E]; simpl.
  - f_equal. symmetry. f_equal. apply filter_absent.
    apply find_player_None. apply List.Forall_forall. intros r Hr.
    apply String.eqb_neq. intros Er. apply Hq. rewrite E, <- Er.
    now apply in_map.
  - f_equal. now apply IH.
Qed.

(** X3: after [removePlayer] no player has the id, the players left are
    the players with another id, in their order, the mode, settings and
    round are untouched, and when the ids are distinct and the player is
    found exactly one player is gone. *)
Theorem removePlayer_spec (playerId : string) (s : GameState) :
  find_player playerId (players (removePlayer playerId s)) = None
  /\ (forall q, In q (players (removePlayer playerId s))
                <-> In q (players s) /\ id q <> playerId)
  /\ sublist (players (removePlayer playerId s)) (players s)
  /\ (forall p,
        List.NoDup (map id (players s)) ->
        find_player playerId (players s) = Some p ->
        length (players s) = S (length (players (removePlayer playerId s))))
  /\ gameMode (removePlayer playerId s) = gameMode s
  /\ settings (removePlayer playerId s) = settings s
  /\ currentRound (removePlayer playerId s) = currentRound s.
Proof.
  unfold removePlayer; simpl. repeat split.
  - apply find_player_None. apply List.Forall_forall. intros q Hq.
    apply filter_In in Hq as [_ Hq]. now apply negb_true_iff in Hq.
  - now apply filter_In in H.
  - apply filter_In in H as [_ H]. apply negb_true_iff in H.
    now apply String.eqb_neq in H.
  - intros [Hq Hne]. apply filter_In. split; [exact Hq|].
    apply negb_true_iff. now apply String.eqb_neq.
  - apply filter_other_ids_sublist.
  - intros p. apply filter_unique_id.
Qed.

Lemma removePlayer_spec_witness :
  length (players cribbage_example)
  = S (length (players (removePlayer "player_0" cribbage_example))).
Proof.
  apply (proj1 (proj2 (proj2 (proj2 (removePlayer_spec "player_0" cribbage_example))))
           (mkPlayer "player_0" "Player 1" 100 100 ∅)).
  - repeat constructor; simpl; intuition discriminate.
  - reflexivity.
Defined.

(** ** How the score mutations compose *)

Lemma modify_player_compose playerId f g ps :
  (forall p, id (f p) = id p) ->
  modify_player playerId g (modify_player playerId f ps)
  = modify_player playerId (fun p => g (f p)) ps.
Proof.
  intros Hid. induction ps as [|q ps IH]; simpl; [reflexivity|].
  destruct (String.eqb (id q) playerId) eqn:E; simpl.
  - now rewrite Hid, E.
  - now rewrite E, IH.
Qed.

Lemma modify_player_ext playerId f g ps :
  (forall p, find_player playerId ps = Some p -> f p = g p) ->
  modify_player playerId f ps = modify_player playerId g ps.
Proof.
  unfold find_player. induction ps as [|q ps IH]; simpl; [reflexivity|].
  destruct (String.eqb (id q) playerId); intros H.
  - f_equal. now apply H.
  - f_equal. now apply IH.
Qed.

Lemma updatePlayerScore_with_score playerId delta s :
  updatePlayerScore playerId delta s
  = set_players
      (modify_player playerId (fun p => with_score (gameMode s) (score p + delta) p)
         (players s)) s.
Proof.
  unfold updatePlayerScore. f_equal. apply modify_player_ext. intros p _.
  unfold with_score, set_position, set_score; simpl.
  destruct (String.eqb (gameMode s) "cribbage");
    destruct (score p + delta <? 0) eqn:E; simpl;
    (apply Z.ltb_lt in E || apply Z.ltb_ge in E);
    (rewrite Z.max_l by lia) || (rewrite Z.max_r by lia); reflexivity.
Qed.

Lemma setPlayerScore_with_score playerId v s :
  setPlayerScore playerId v s
  = set_players (modify_player playerId (with_score (gameMode s) v) (players s)) s.
Proof.
  unfold setPlayerScore. f_equal. apply modify_player_ext. intros p _.
  unfold with_score, set_position, set_score; simpl.
  destruct (String.eqb (gameMode s) "cribbage"); reflexivity.
Qed.

Lemma with_score_twice mode u v p :
  with_score mode v (with_score mode u p) = with_score mode v p.
Proof. unfold with_score; simpl. destruct (String.eqb mode "cribbage"); reflexivity. Qed.

(** X4: two [updatePlayerScore] calls on a player add up to one call with
    the sum when the first does not hit the clamp; a [setPlayerScore]
    overwrites what came before; and [updatePlayerScore] after
    [setPlayerScore] is a [setPlayerScore] of the clamped sum. *)
Theorem score_mutations_compose (playerId : string) (s : GameState) :
  (forall a b,
      (forall p, find_player playerId (players s) = Some p -> 0 <= score p + a) ->
      updatePlayerScore playerId b (updatePlayerScore playerId a s)
      = updatePlayerScore playerId (a + b) s)
  /\ (forall a v,
      setPlayerScore playerId v (updatePlayerScore playerId a s)
      = setPlayerScore playerId v s)
  /\ (forall u v,
      setPlayerScore playerId v (setPlayerScore playerId u s)
      = setPlayerScore playerId v s)
  /\ (forall v b,
      updatePlayerScore playerId b (setPlayerScore playerId v s)
      = setPlayerScore playerId (Z.max 0 v + b) s).
Proof.
  repeat split; intros;
    rewrite ?updatePlayerScore_with_score, ?setPlayerScore_with_score;
    unfold set_players; simpl;
    rewrite modify_player_compose by reflexivity;
    f_equal; apply modify_player_ext; intros p Hp;
    rewrite ?with_score_twice; try reflexivity.
  - specialize (H p Hp).
    change (score (with_score ?m ?x ?q)) with (Z.max 0 x). f_equal. lia.
Qed.

Lemma score_mutations_compose_witness :
  updatePlayerScore "player_0" (-30) (updatePlayerScore "player_0" 5 cribbage_example)
  = updatePlayerScore "player_0" (5 + -30) cribbage_example.
Proof.
  apply (proj1 (score_mutations_compose "player_0" cribbage_example)).
  intros p [= <-]. simpl. lia.
Defined.

(** The clamp is why a decrement and an increment do not cancel at zero. *)
Lemma decrement_then_increment_at_zero :
  exists p,
    find_player "player_0"
      (players (updatePlayerScore "player_0" 1
                  (updatePlayerScore "player_0" (-1) custom_example))) = Some p
    /\ score p = 1.
Proof. eexists. split; reflexivity. Qed.

(** ** [resetGame] and [setGameMode] *)

(** X5: [resetGame] twice is [resetGame] once, the last [setGameMode] wins,
    [resetGame] and [setGameMode] commute, and a score changed between a mode
    switch and a reset leaves no trace. *)
Theorem reset_and_mode_compose (s : GameState) :
  resetGame (resetGame s) = resetGame s
  /\ (forall m1 m2, setGameMode m2 (setGameMode m1 s) = setGameMode m2 s)
  /\ (forall m, resetGame (setGameMode m s) = setGameMode m (resetGame s))
  /\ (forall m playerId delta,
        resetGame (updatePlayerScore playerId delta (setGameMode m s))
        = setGameMode m (resetGame s)).
Proof.
  assert (Hmod : forall m playerId delta ps,
    map (fun p => set_roundData ∅ (set_position 0 (set_score 0 p)))
        (modify_player playerId
           (fun p => with_score m (score p + delta) p) ps)
    = map (fun p => set_roundData ∅ (set_position 0 (set_score 0 p))) ps).
  { intros m pid d ps. induction ps as [|q ps IH]; simpl; [reflexivity|].
    destruct (String.eqb (id q) pid); simpl; [reflexivity|now rewrite IH]. }
  repeat split; intros.
  - unfold resetGame; simpl. now rewrite map_map.
  - unfold setGameMode; simpl. now rewrite map_map.
  - unfold resetGame, setGameMode; simpl. now rewrite !map_map.
  - rewrite updatePlayerScore_with_score.
    unfold resetGame, setGameMode; simpl. rewrite Hmod, !map_map. reflexivity.
Qed.

(** ** [fromJSON] *)

Lemma fold_bump_counter_fixed ps c :
  Forall (fun p => forall n, id_number (id p) = Some n -> n < c) ps ->
  fold_left bump_counter ps c = c.
Proof.
  induction 1 as [|p ps Hp _ IH]; simpl; [reflexivity|].
  replace (bump_counter c p) with c; [exact IH|].
  unfold bump_counter. destruct (id_number (id p)) as [n|]; [|reflexivity].
  specialize (Hp n eq_refl). destruct (Z.geb_spec n c); [lia|reflexivity].
Qed.

Lemma assign_settings_twice t u :
  assign_settings (assign_settings t u) u = assign_settings t u.
Proof.
  unfold assign_settings; simpl.
  destruct u as [[?|] [?|] [?|] [?|] [?|] [?|]]; reflexivity.
Qed.

(** X6: restoring the same snapshot twice is restoring it once, the id
    counter included. *)
Theorem fromJSON_idempotent (data : Snapshot) (w : World) :
  fromJSON data (fromJSON data w) = fromJSON data w.
Proof.
  unfold fromJSON at 1. remember (fromJSON data w) as w1 eqn:Ew.
  assert (Hc : fold_left bump_counter (players (state w1)) (playerIdCounter w1)
               = playerIdCounter w1).
  { apply fold_bump_counter_fixed. apply List.Forall_forall. intros q Hq n Hn.
    subst w1. now apply (fromJSON_counter_above data w q n). }
  assert (Hp : default (players (state w1)) (s_players data) = players (state w1)).
  { subst w1. simpl. now destruct (s_players data). }
  rewrite Hp, Hc. destruct w1 as [s1 c1]. simpl. f_equal.
  assert (Es : s1 = state (fromJSON data w)) by now rewrite <- Ew.
  destruct s1 as [ps m st r rs]. simpl in *.
  injection Es as Eps Em Est Er Ers. f_equal.
  - destruct (s_gameMode data) as [md|]; [|reflexivity].
    destruct (JS.truthy_string md) eqn:E; [now rewrite Em|reflexivity].
  - destruct (s_settings data); [|reflexivity].
    rewrite Est. apply assign_settings_twice.
  - destruct (s_currentRound data) as [rd|]; [|reflexivity].
    destruct (JS.truthy_number rd) eqn:E; [now rewrite Er|reflexivity].
  - now destruct (s_rounds data).
Qed.

(** ** The round counter *)

(** X7: no method but [fromJSON] moves the round: over every run of the
    other operations [currentRound] is what it was or 1 and [rounds] is what
    it was or empty, so from the constructor they stay 1 and empty. *)
Theorem currentRound_never_advances (ops : list Op) (w : World) :
  Forall not_fromJSON ops ->
  (currentRound (state (run ops w)) = currentRound (state w)
   \/ currentRound (state (run ops w)) = 1)
  /\ (rounds (state (run ops w)) = rounds (state w)
      \/ rounds (state (run ops w)) = [])
  /\ (currentRound (state w) = 1 -> currentRound (state (run ops w)) = 1)
  /\ (rounds (state w) = [] -> rounds (state (run ops w)) = []).
Proof.
  intros Hops.
  assert (H : (currentRound (state (run ops w)) = currentRound (state w)
               \/ currentRound (state (run ops w)) = 1)
              /\ (rounds (state (run ops w)) = rounds (state w)
                  \/ rounds (state (run ops w)) = [])).
  { unfold run. revert w. induction Hops as [|op ops Hop _ IH]; intros w; simpl.
    - auto.
    - destruct (IH (step op w)) as [Hr Hrs].
      assert (Hstep : (currentRound (state (step op w)) = currentRound (state w)
                       \/ currentRound (state (step op w)) = 1)
                      /\ (rounds (state (step op w)) = rounds (state w)
                          \/ rounds (state (step op w)) = [])).
      { destruct op; simpl in *; auto. contradiction. }
      destruct Hstep as [Hs Hss]. split.
      + destruct Hr as [Hr|Hr]; [rewrite Hr; exact Hs|now right].
      + destruct Hrs as [Hrs|Hrs]; [rewrite Hrs; exact Hss|now right]. }
  destruct H as [Hr Hrs]. repeat split; auto.
  - intros E. destruct Hr as [Hr|Hr]; congruence.
  - intros E. destruct Hrs as [Hrs|Hrs]; congruence.
Qed.

Lemma currentRound_never_advances_witness :
  currentRound
    (state (run [OpAddPlayer None; OpUpdateRoundData "player_0" 3 (mkRoundEntry (Some 2) None None);
                 OpSetGameMode "pooch"; OpUpdatePlayerScore "player_0" 4]
              initial_world)) = 1.
Proof.
  apply (currentRound_never_advances _ initial_world).
  - repeat constructor.
  - reflexivity.
Defined.

(** ** [updateRoundData] *)

(** X8: after [updateRoundData] on an existing player the entry of the
    round holds the given fields over the fields it had, a given bid or
    tricks can be read back, the other rounds are as they were, and the
    id, name, score and position of the player are untouched. *)
Theorem updateRoundData_lookup (playerId : string) (round : Z) (data : RoundEntry)
    (s : GameState) (p : Player) :
  find_player playerId (players s) = Some p ->
  exists p',
    find_player playerId (players (updateRoundData playerId round data s)) = Some p'
    /\ roundData p' !! round
       = Some (assign_entry (default empty_entry (roundData p !! round)) data)
    /\ (forall r, r <> round -> roundData p' !! r = roundData p !! r)
    /\ (forall b, rd_bid data = Some b ->
                  exists rd, roundData p' !! round = Some rd /\ rd_bid rd = Some b)
    /\ (forall t, rd_tricks data = Some t ->
                  exists rd, roundData p' !! round = Some rd /\ rd_tricks rd = Some t)
    /\ id p' = id p /\ name p' = name p /\ score p' = score p
    /\ position p' = position p.
Proof.
  intros Hf. eexists. split.
  - unfold updateRoundData; simpl.
    apply (find_modify_player playerId
             (fun q => set_roundData
                         (<[round := assign_entry (default empty_entry (roundData q !! round)) data]>
                            (roundData q)) q));
      [exact Hf|reflexivity].
  - simpl. repeat split.
    + apply lookup_insert_eq.
    + intros r Hr. now apply lookup_insert_ne.
    + intros b Hb. eexists. split; [apply lookup_insert_eq|]. simpl. now rewrite Hb.
    + intros t Ht. eexists. split; [apply lookup_insert_eq|]. simpl. now rewrite Ht.
Qed.

Lemma updateRoundData_lookup_witness :
  exists p',
    find_player "player_0"
      (players (updateRoundData "player_0" 2 (mkRoundEntry (Some 3) None None) pooch_example))
    = Some p'
    /\ roundData p' !! 2 = Some (mkRoundEntry (Some 3) None None)
    /\ roundData p' !! 1 = None.
Proof.
  destruct (updateRoundData_lookup "player_0" 2 (mkRoundEntry (Some 3) None None)
              pooch_example (mkPlayer "player_0" "Player 1" 0 0 ∅) eq_refl)
    as (p' & H1 & H2 & H3 & _).
  exists p'. split; [exact H1|]. split; [exact H2|].
  rewrite H3 by discriminate. reflexivity.
Defined.

(** ** Changes and [notify] *)

(** X9: a method other than [fromJSON] that returns without [notify] (its
    player was not found) has changed nothing, so every change such a method
    makes is followed by the observers and by [persistState]. *)
Theorem unnotified_method_changes_nothing (op : Op) (w : World) :
  not_fromJSON op ->
  notifies op (state w) = false ->
  step op w = w.
Proof.
  intros Hop Hn. destruct w as [s c].
  destruct op; simpl in *; try discriminate; try contradiction;
    unfold found in Hn;
    destruct (find_player playerId (players s)) eqn:Hf; try discriminate;
    unfold on_state; simpl; f_equal;
    now apply (methods_without_player playerId s Hf).
Qed.

Lemma unnotified_method_changes_nothing_witness :
  step (OpSetPlayerScore "player_9" 50) (mkWorld custom_example 2)
  = mkWorld custom_example 2.
Proof.
  apply unnotified_method_changes_nothing; [exact I|reflexivity].
Defined.

(** ** Ids stay distinct *)

Lemma map_id_modify_player playerId f ps :
  (forall p, id (f p) = id p) ->
  map id (modify_player playerId f ps) = map id ps.
Proof.
  intros Hid. induction ps as [|q ps IH]; simpl; [reflexivity|].
  destruct (String.eqb (id q) playerId); simpl; congruence.
Qed.

Lemma NoDup_map_id_filter (P : Player -> bool) ps :
  List.NoDup (map id ps) -> List.NoDup (map id (List.filter P ps)).
Proof.
  induction ps as [|q ps IH]; simpl; [auto|].
  intros H. apply List.NoDup_cons_iff in H as [Hq Hnd].
  destruct (P q); simpl; [|auto].
  apply List.NoDup_cons; [|auto].
  intros Hin. apply Hq. apply in_map_iff in Hin as (r & Er & Hr).
  apply filter_In in Hr as [Hr _]. rewrite <- Er. now apply in_map.
Qed.

Lemma NoDup_snoc (l : list string) x :
  List.NoDup l -> ~ In x l -> List.NoDup (l ++ [x]).
Proof.
  induction l as [|y l IH]; simpl; intros Hnd Hx.
  - repeat constructor. intros [].
  - apply List.NoDup_cons_iff in Hnd as [Hy Hnd].
    apply List.NoDup_cons.
    + rewrite in_app_iff. simpl. intuition congruence.
    + apply IH; intuition.
Qed.

(** A property of the ids that a method keeps when it keeps the ids. *)
Lemma Forall_id_modify_player (P : string -> Prop) playerId f ps :
  (forall p, id (f p) = id p) ->
  Forall (fun p => P (id p)) ps ->
  Forall (fun p => P (id p)) (modify_player playerId f ps).
Proof.
  intros Hid. apply Forall_modify_player. intros p Hp. now rewrite Hid.
Qed.

Lemma step_keeps_fresh_ids op w :
  keeps_ids op -> fresh_ids w -> fresh_ids (step op w).
Proof.
  unfold fresh_ids. intros Hop [Hnd Hlt].
  assert (Hmod : forall playerId f,
    (forall p, id (f p) = id p) ->
    List.NoDup (map id (modify_player playerId f (players (state w))))
    /\ Forall (fun p => forall n, id_number (id p) = Some n -> n < playerIdCounter w)
              (modify_player playerId f (players (state w)))).
  { intros pid f Hid. split.
    - now rewrite map_id_modify_player.
    - now apply (Forall_id_modify_player
                   (fun i => forall n, id_number i = Some n -> n < playerIdCounter w)). }
  assert (Hmap : forall f : Player -> Player,
    (forall p, id (f p) = id p) ->
    List.NoDup (map id (map f (players (state w))))
    /\ Forall (fun p => forall n, id_number (id p) = Some n -> n < playerIdCounter w)
              (map f (players (state w)))).
  { intros f Hid. split.
    - rewrite map_map. erewrite map_ext; [exact Hnd|]. intros p. apply Hid.
    - apply List.Forall_forall. intros p Hp. apply in_map_iff in Hp as (q & <- & Hq).
      rewrite Hid. exact (proj1 (List.Forall_forall _ _) Hlt q Hq). }
  destruct op as [n|pid|pid u|pid delta|pid v|mode|st|pid r d| |data]; simpl in *.
  - split.
    + rewrite map_app. simpl. apply NoDup_snoc; [exact Hnd|].
      intros Hi. apply in_map_iff in Hi as (q & Eq & Hq).
      pose proof (proj1 (List.Forall_forall _ _) Hlt q Hq) as Hc. cbv beta in Hc.
      specialize (Hc (playerIdCounter w)).
      rewrite Eq, id_number_generated in Hc. specialize (Hc eq_refl). lia.
    + apply Forall_app. split.
      * eapply List.Forall_impl; [|exact Hlt]. intros p Hp k Hk.
        specialize (Hp k Hk). lia.
      * constructor; [|constructor]. simpl. intros k Hk.
        rewrite id_number_generated in Hk. injection Hk as <-. lia.
  - split.
    + now apply NoDup_map_id_filter.
    + apply List.Forall_forall. intros p Hp. apply filter_In in Hp as [Hp _].
      exact (proj1 (List.Forall_forall _ _) Hlt p Hp).
  - apply Hmod. intros p. unfold assign_player. simpl. now rewrite Hop.
  - apply Hmod. intros p. simpl.
    destruct (String.eqb (gameMode (state w)) "cribbage");
      destruct (score p + delta <? 0); reflexivity.
  - apply Hmod. intros p.
    destruct (String.eqb (gameMode (state w)) "cribbage"); reflexivity.
  - apply Hmap. reflexivity.
  - split; assumption.
  - apply Hmod. reflexivity.
  - apply Hmap. reflexivity.
  - split.
    + destruct (s_players data); simpl; assumption.
    + apply List.Forall_forall. intros q Hq k Hk.
      now apply (fold_bump_counter_above _ (playerIdCounter w) q k).
Qed.

(** X10: the players' ids stay pairwise distinct, and the id of the next
    player differs from all of them, over every run of operations that
    assign no id (no [updatePlayer] with an [id] field, no [fromJSON] of
    players that share an id), from any state with distinct ids below the
    counter. *)
Theorem ids_stay_distinct (ops : list Op) (w : World) :
  fresh_ids w ->
  Forall keeps_ids ops ->
  fresh_ids (run ops w)
  /\ List.NoDup (map id (players (state (run ops w))))
  /\ (forall name q,
        In q (players (state (run ops w))) ->
        id (snd (addPlayer name (run ops w))) <> id q).
Proof.
  intros Hw Hops.
  assert (H : fresh_ids (run ops w)).
  { unfold run. revert w Hw.
    induction Hops as [|op ops Hop _ IH]; intros w Hw; simpl; [exact Hw|].
    apply IH. now apply step_keeps_fresh_ids. }
  split; [exact H|]. split; [exact (proj1 H)|].
  intros name q Hq E. destruct H as [_ Hlt].
  pose proof (proj1 (List.Forall_forall _ _) Hlt q Hq) as Hc. cbv beta in Hc.
  specialize (Hc (playerIdCounter (run ops w))).
  rewrite <- E, addPlayer_id, id_number_generated in Hc.
  specialize (Hc eq_refl). lia.
Qed.

Lemma initial_world_fresh_ids : fresh_ids initial_world.
Proof. split; simpl; constructor. Qed.

Lemma ids_stay_distinct_witness :
  List.NoDup
    (map id (players (state (run [OpAddPlayer None; OpAddPlayer (Some "Ann");
                                  OpRemovePlayer "player_0"; OpAddPlayer None;
                                  OpUpdatePlayer "player_1"
                                    (mkPlayerUpdates None (Some "Bob") None None None)]
                               initial_world)))).
Proof.
  apply (ids_stay_distinct _ initial_world).
  - split; simpl; constructor.
  - repeat constructor.
Defined.

(** ** A cribbage game: positions, holes and pegs *)

Lemma step_keeps_positions_synced op w :
  keeps_positions op ->
  gameMode (state w) = "cribbage" ->
  positions_synced (state w) ->
  gameMode (state (step op w)) = "cribbage"
  /\ positions_synced (state (step op w)).
Proof.
  unfold positions_synced. intros Hop Hm Hs.
  destruct op as [n|pid|pid u|pid delta|pid v|mode|st|pid r d| |data]; simpl in *;
    try contradiction; (split; [assumption|]); try assumption.
  - apply Forall_app. split; [exact Hs|]. repeat constructor.
  - apply List.Forall_forall. intros p Hp. apply filter_In in Hp as [Hp _].
    exact (proj1 (List.Forall_forall _ _) Hs p Hp).
  - apply Forall_modify_player; [|exact Hs]. intros p Hp.
    destruct Hop as [Hsc Hpos]. unfold assign_player; simpl.
    now rewrite Hsc, Hpos.
  - rewrite Hm. apply Forall_modify_player; [|exact Hs]. intros p Hp. simpl.
    destruct (score p + delta <? 0); reflexivity.
  - rewrite Hm. apply Forall_modify_player; [|exact Hs]. intros p Hp. reflexivity.
  - mapped_player p q Hq. simpl. exact (proj1 (List.Forall_forall _ _) Hs q Hq).
  - apply Forall_modify_player; [|exact Hs]. intros p Hp. exact Hp.
  - mapped_player p q Hq. reflexivity.
Qed.

(** X11: in a cribbage game whose positions equal the scores, every run
    of operations that stay in cribbage mode and write scores through
    [updatePlayerScore], [setPlayerScore] and [resetGame] only keeps each
    position equal to the score, so each peg is drawn at
    [min(score, 121)]. *)
Theorem cribbage_positions_follow_scores (ops : list Op) (w : World) :
  gameMode (state w) = "cribbage" ->
  positions_synced (state w) ->
  Forall keeps_positions ops ->
  gameMode (state (run ops w)) = "cribbage"
  /\ Forall (fun p => position p = score p /\ peg_position p = Z.min (score p) 121)
            (players (state (run ops w))).
Proof.
  intros Hm Hs Hops.
  assert (H : gameMode (state (run ops w)) = "cribbage"
              /\ positions_synced (state (run ops w))).
  { unfold run. revert w Hm Hs.
    induction Hops as [|op ops Hop _ IH]; intros w Hm Hs; simpl; [auto|].
    destruct (step_keeps_positions_synced op w Hop Hm Hs) as [Hm' Hs'].
    now apply IH. }
  destruct H as [Hm' Hs']. split; [exact Hm'|].
  eapply List.Forall_impl; [|exact Hs']. intros p Hp. split; [exact Hp|].
  now rewrite peg_position_min, Hp.
Qed.

Lemma cribbage_positions_follow_scores_witness :
  Forall (fun p => position p = score p /\ peg_position p = Z.min (score p) 121)
         (players (state (run [OpUpdatePlayerScore "player_0" 30; OpAddPlayer None;
                               OpSetPlayerScore "player_2" 15; OpRemovePlayer "player_1"]
                            (mkWorld cribbage_example 2)))).
Proof.
  apply (cribbage_positions_follow_scores _ (mkWorld cribbage_example 2)).
  - reflexivity.
  - repeat constructor.
  - repeat constructor.
Defined.

(** A switch to cribbage does not move the positions to the scores: they
    stay as they were until the next score mutation or reset. *)
Lemma switch_to_cribbage_keeps_positions :
  exists p,
    find_player "player_0" (players (setGameMode "cribbage" custom_game_with_points)) = Some p
    /\ score p = 5 /\ position p = 0 /\ peg_position p = 0.
Proof. eexists. repeat split. Qed.

Section Board.

Import CribbageBoard.

Lemma loop_In first last i : first <= i <= last -> In i (loop first last).
Proof.
  intros H. unfold loop. apply in_map_iff. exists (Z.to_nat (i - first)).
  split; [lia|]. apply in_seq. lia.
Qed.

Lemma holes_in_view : forallb hole_in_view holes = true.
Proof. vm_compute. reflexivity. Qed.

Lemma holes_found :
  forallb (fun i => match find_hole i with
                    | Some h => hole_position h =? i
                    | None => false
                    end) (loop 0 121) = true.
Proof. vm_compute. reflexivity. Qed.

Lemma find_hole_in_range position :
  0 <= position <= 121 ->
  exists h, find_hole position = Some h /\ hole_position h = position /\ In h holes.
Proof.
  intros H. pose proof holes_found as Hall.
  rewrite forallb_forall in Hall. specialize (Hall position (loop_In 0 121 position H)).
  destruct (find_hole position) as [h|] eqn:E; [|discriminate].
  exists h. split; [reflexivity|]. split; [now apply Z.eqb_eq|].
  unfold find_hole in E. now apply find_some in E.
Qed.

Lemma find_hole_out_of_range position :
  position < 0 \/ 121 < position -> find_hole position = None.
Proof.
  intros H. destruct (find_hole position) as [h|] eqn:E; [|reflexivity].
  unfold find_hole in E. apply find_some in E as [Hin Hpos].
  apply Z.eqb_eq in Hpos.
  pose proof holes_in_view as Hall. rewrite forallb_forall in Hall.
  specialize (Hall h Hin). unfold hole_in_view in Hall.
  repeat (apply andb_prop in Hall as [Hall ?]). lia.
Qed.

(** X12: the board has 122 holes, one for each position from 0 to 121, at
    pairwise distinct places inside the view box; [find] returns the hole of
    a position in that range and nothing outside it, so a player with a
    position of at least 0 has both pegs at the hole [min(position, 121)],
    3 to the left and to the right of its centre, and a player with a
    negative position has no pegs. *)
Theorem board_has_one_hole_per_position :
  length holes = 122%nat
  /\ List.NoDup (map hole_position holes)
  /\ List.NoDup (map (fun h => (hole_x h, hole_y h)) holes)
  /\ (forall position,
        0 <= position <= 121 ->
        exists h, find_hole position = Some h /\ hole_position h = position
                  /\ 40 <= hole_x h <= 760 /\ 60 <= hole_y h <= 350)
  /\ (forall position, position < 0 \/ 121 < position -> find_hole position = None)
  /\ (forall p : Player,
        0 <= position p ->
        exists h, find_hole (peg_position p) = Some h
                  /\ hole_position h = Z.min (position p) 121
                  /\ pegs p = Some ((hole_x h - 3, hole_y h), (hole_x h + 3, hole_y h)))
  /\ (forall p : Player, position p < 0 -> pegs p = None).
Proof.
  split; [reflexivity|].
  split; [apply NoDup_ListNoDup, (bool_decide_unpack _); vm_compute; exact I|].
  split; [apply NoDup_ListNoDup, (bool_decide_unpack _); vm_compute; exact I|].
  split; [|split; [exact find_hole_out_of_range|split]].
  - intros position H.
    destruct (find_hole_in_range position H) as (h & Hf & Hp & Hin).
    exists h. split; [exact Hf|]. split; [exact Hp|].
    pose proof holes_in_view as Hall. rewrite forallb_forall in Hall.
    specialize (Hall h Hin). unfold hole_in_view in Hall.
    repeat (apply andb_prop in Hall as [Hall ?]). lia.
  - intros p Hp.
    assert (Hr : 0 <= peg_position p <= 121) by (rewrite peg_position_min; lia).
    destruct (find_hole_in_range _ Hr) as (h & Hf & Hpos & _).
    exists h. split; [exact Hf|]. split; [now rewrite Hpos, peg_position_min|].
    unfold pegs. now rewrite Hf.
  - intros p Hp. unfold pegs. rewrite find_hole_out_of_range; [reflexivity|].
    left. rewrite peg_position_min. lia.
Qed.

Lemma board_has_one_hole_per_position_witness :
  exists h, find_hole 45 = Some h /\ hole_position h = 45
            /\ 40 <= hole_x h <= 760 /\ 60 <= hole_y h <= 350.
Proof.
  apply (proj1 (proj2 (proj2 (proj2 board_has_one_hole_per_position)))). lia.
Defined.

(** The finish hole is the only hole at its place. *)
Lemma finish_hole_only :
  forallb (fun h => negb ((hole_x h =? 400) && (hole_y h =? 350))
                    || (hole_position h =? 121)) holes = true.
Proof. vm_compute. reflexivity. Qed.

Lemma pegs_at_finish (p : Player) :
  0 <= position p ->
  (pegs p = Some ((397, 350), (403, 350)) <-> 121 <= position p).
Proof.
  intros Hp.
  assert (Hr : 0 <= peg_position p <= 121) by (rewrite peg_position_min; lia).
  destruct (find_hole_in_range _ Hr) as (h & Hf & Hpos & Hin).
  unfold pegs. rewrite Hf. rewrite peg_position_min in Hpos. split.
  - intros [= Hx _ Hy].
    pose proof finish_hole_only as Hall. rewrite forallb_forall in Hall.
    specialize (Hall h Hin).
    replace (hole_x h =? 400) with true in Hall by (symmetry; apply Z.eqb_eq; lia).
    replace (hole_y h =? 350) with true in Hall by (symmetry; apply Z.eqb_eq; lia).
    simpl in Hall. apply Z.eqb_eq in Hall. lia.
  - intros H121.
    assert (E : find_hole 121 = Some h).
    { rewrite <- Hf, peg_position_min. f_equal. lia. }
    vm_compute in E. injection E as <-. reflexivity.
Qed.

(** X13: in cribbage mode, after [updatePlayerScore] or [setPlayerScore]
    on an existing player the pegs of that player are drawn, and they are at
    the finish hole (400, 350) exactly when [checkWin] holds of the
    score. *)
Theorem pegs_reach_finish_exactly_on_win (playerId : string) (s : GameState) (p : Player) :
  gameMode s = "cribbage" ->
  find_player playerId (players s) = Some p ->
  (forall delta, exists p',
      find_player playerId (players (updatePlayerScore playerId delta s)) = Some p'
      /\ pegs p' <> None
      /\ (pegs p' = Some ((397, 350), (403, 350)) <-> Games.checkWin (score p') = true))
  /\ (forall new_score, exists p',
      find_player playerId (players (setPlayerScore playerId new_score s)) = Some p'
      /\ pegs p' <> None
      /\ (pegs p' = Some ((397, 350), (403, 350)) <-> Games.checkWin (score p') = true)).
Proof.
  intros Hm Hf.
  assert (Hpeg : forall q, position q = score q -> 0 <= score q ->
            pegs q <> None
            /\ (pegs q = Some ((397, 350), (403, 350)) <-> Games.checkWin (score q) = true)).
  { intros q Hq Hs. split.
    - assert (Hr : 0 <= peg_position q <= 121) by (rewrite peg_position_min; lia).
      destruct (find_hole_in_range _ Hr) as (h & Hh & _).
      unfold pegs. now rewrite Hh.
    - rewrite pegs_at_finish by lia. unfold Games.checkWin.
      rewrite Hq. split; intros H; [apply Z.geb_le|apply Z.geb_le in H]; lia. }
  split; intros v.
  - destruct (updatePlayerScore_found playerId v s p Hf) as (p' & H1 & H2 & H3 & _).
    rewrite Hm in H3. simpl in H3. exists p'. split; [exact H1|].
    apply Hpeg; [exact H3|lia].
  - destruct (setPlayerScore_found playerId v s p Hf) as (p' & H1 & H2 & H3 & _).
    rewrite Hm in H3. simpl in H3. exists p'. split; [exact H1|].
    apply Hpeg; [exact H3|lia].
Qed.

Lemma pegs_reach_finish_exactly_on_win_witness :
  exists p',
    find_player "player_0" (players (updatePlayerScore "player_0" 21 cribbage_example)) = Some p'
    /\ pegs p' <> None
    /\ (pegs p' = Some ((397, 350), (403, 350)) <-> Games.checkWin (score p') = true).
Proof.
  exact (proj1 (pegs_reach_finish_exactly_on_win "player_0" cribbage_example
                  (mkPlayer "player_0" "Player 1" 100 100 ∅) eq_refl eq_refl) 21).
Defined.

End Board.

(** ** The Pooch table *)

Lemma sum_round_scores_insert (m : gmap Z RoundEntry) k rd :
  sum_round_scores (<[k := rd]> m)
  = sum_round_scores (delete k m) + JS.or_number (rd_score rd) 0.
Proof.
  unfold sum_round_scores. rewrite <- insert_delete_eq.
  rewrite map_fold_insert_L.
  - reflexivity.
  - intros. lia.
  - apply lookup_delete_eq.
Qed.

Lemma sum_round_scores_lookup (m : gmap Z RoundEntry) k rd :
  m !! k = Some rd ->
  sum_round_scores m = sum_round_scores (delete k m) + JS.or_number (rd_score rd) 0.
Proof.
  intros H. unfold sum_round_scores.
  rewrite (map_fold_delete_L _ _ k rd m); [reflexivity| |exact H].
  intros. lia.
Qed.

Lemma sum_round_scores_absent (m : gmap Z RoundEntry) k :
  m !! k = None -> sum_round_scores (delete k m) = sum_round_scores m.
Proof. intros H. now rewrite delete_id. Qed.

(** Writing an entry without a score over one without a score keeps the
    sum. *)
Lemma sum_round_scores_unscored (m : gmap Z RoundEntry) k rd :
  rd_score rd = None ->
  rd_score (default empty_entry (m !! k)) = None ->
  sum_round_scores (<[k := rd]> m) = sum_round_scores m.
Proof.
  intros Hrd Hold. rewrite sum_round_scores_insert, Hrd. simpl.
  destruct (m !! k) as [old|] eqn:E; simpl in Hold.
  - rewrite (sum_round_scores_lookup m k old E), Hold. reflexivity.
  - rewrite sum_round_scores_absent by exact E. lia.
Qed.

Lemma Forall_modify_found (P : Player -> Prop) playerId f ps p :
  find_player playerId ps = Some p ->
  P (f p) -> Forall P ps -> Forall P (modify_player playerId f ps).
Proof.
  intros Hf Hp Hall.
  destruct (modify_player_split playerId ps p Hf) as (before & after & Hps & _ & Hm).
  rewrite Hm. rewrite Hps in Hall. apply Forall_app in Hall as [Hb Ha].
  apply Forall_app. split; [exact Hb|].
  apply Forall_cons in Ha as [_ Ha]. now constructor.
Qed.

(** One entry keeps the table consistent. *)
Lemma pooch_entry_keeps_consistency (playerId : string) (round : Z) (isBid : bool)
    (value : Z) (s : GameState) (p : Player) :
  gameMode s = "pooch" ->
  find_player playerId (players s) = Some p ->
  Forall pooch_consistent (players s) ->
  exists s',
    handlePlayerContainerChange playerId round isBid value s = Some s'
    /\ gameMode s' = "pooch"
    /\ Forall pooch_consistent (players s')
    /\ map id (players s') = map id (players s)
    /\ map name (players s') = map name (players s).
Proof.
  intros Hm Hf Hall.
  assert (Hp : pooch_consistent p).
  { apply find_player_In in Hf. exact (proj1 (List.Forall_forall _ _) Hall p Hf). }
  destruct Hp as [Hsum Hent].
  assert (Hold : entry_consistent (default empty_entry (roundData p !! round))).
  { destruct (roundData p !! round) as [old|] eqn:E; simpl; [|reflexivity].
    exact (Hent round old E). }
  unfold handlePlayerContainerChange. rewrite Hf, Hm. simpl.
  set (rd0 := default empty_entry (roundData p !! round)) in *.
  set (rd1 := if isBid then mkRoundEntry (Some value) (rd_tricks rd0) (rd_score rd0)
              else mkRoundEntry (rd_bid rd0) (Some value) (rd_score rd0)).
  destruct (rd_bid rd1) as [b|] eqn:Eb; [destruct (rd_tricks rd1) as [t|] eqn:Et|].
  - eexists. split; [reflexivity|]. simpl. split; [exact Hm|]. split; [|split].
    + apply (Forall_modify_found pooch_consistent playerId _ _ p Hf); [|exact Hall].
      split; simpl; [reflexivity|].
      apply map_Forall_insert_2; [|exact Hent].
      unfold entry_consistent; simpl. reflexivity.
    + now rewrite map_id_modify_player.
    + clear. induction (players s) as [|q ps IH]; simpl; [reflexivity|].
      destruct (String.eqb (id q) playerId); simpl; congruence.
  - (* a bid without tricks: the entry gets no score *)
    assert (Hbid : isBid = true /\ rd_tricks rd0 = None).
    { destruct isBid; simpl in *; [auto|discriminate]. }
    destruct Hbid as [-> Ht0]. subst rd1. simpl in *.
    assert (Hs0 : rd_score rd0 = None).
    { unfold entry_consistent in Hold. rewrite Ht0 in Hold.
      now destruct (rd_bid rd0). }
    eexists. split; [reflexivity|]. unfold updateRoundData. simpl.
    split; [exact Hm|]. split; [|split].
    + apply (Forall_modify_found pooch_consistent playerId _ _ p Hf); [|exact Hall].
      fold rd0. unfold assign_entry. simpl. rewrite Ht0, Hs0.
      split; simpl.
      * rewrite sum_round_scores_unscored; [exact Hsum|reflexivity|exact Hs0].
      * apply map_Forall_insert_2; [reflexivity|exact Hent].
    + now rewrite map_id_modify_player.
    + clear. induction (players s) as [|q ps IH]; simpl; [reflexivity|].
      destruct (String.eqb (id q) playerId); simpl; congruence.
  - (* tricks without a bid *)
    assert (Hbid : isBid = false /\ rd_bid rd0 = None).
    { destruct isBid; simpl in *; [discriminate|auto]. }
    destruct Hbid as [-> Hb0]. subst rd1. simpl in *.
    assert (Hs0 : rd_score rd0 = None).
    { unfold entry_consistent in Hold. now rewrite Hb0 in Hold. }
    eexists. split; [reflexivity|]. unfold updateRoundData. simpl.
    split; [exact Hm|]. split; [|split].
    + apply (Forall_modify_found pooch_consistent playerId _ _ p Hf); [|exact Hall].
      fold rd0. unfold assign_entry. simpl. rewrite Hb0, Hs0.
      split; simpl.
      * rewrite sum_round_scores_unscored; [exact Hsum|reflexivity|exact Hs0].
      * apply map_Forall_insert_2; [reflexivity|exact Hent].
    + now rewrite map_id_modify_player.
    + clear. induction (players s) as [|q ps IH]; simpl; [reflexivity|].
      destruct (String.eqb (id q) playerId); simpl; congruence.
Qed.

(** X14: in Pooch mode, from a table in which every total is the sum of
    the round scores and every round has a score exactly when it has a bid
    and tricks, with the score [calculateScore] gives, any sequence of bids
    and tricks typed in for existing players is handled without an error
    and keeps the table so; ids and names do not change. *)
Theorem pooch_total_is_sum_of_rounds (inputs : list (string * Z * bool * Z)) (s : GameState) :
  gameMode s = "pooch" ->
  Forall pooch_consistent (players s) ->
  Forall (fun i => In (fst (fst (fst i))) (map id (players s))) inputs ->
  exists s',
    enter_all inputs s = Some s'
    /\ gameMode s' = "pooch"
    /\ Forall (fun p =>
                 score p = sum_round_scores (roundData p)
                 /\ forall r rd, roundData p !! r = Some rd ->
                      match rd_bid rd, rd_tricks rd with
                      | Some b, Some t => rd_score rd = Some (Games.calculateScore b t)
                      | _, _ => rd_score rd = None
                      end)
               (players s')
    /\ map id (players s') = map id (players s)
    /\ map name (players s') = map name (players s).
Proof.
  intros Hm Hall Hin. revert s Hm Hall Hin.
  induction inputs as [|[[[pid r] isBid] v] rest IH]; intros s Hm Hall Hin; simpl.
  - exists s. repeat split; auto.
  - apply Forall_cons in Hin as [Hpid Hrest]. simpl in Hpid.
    assert (Hf : exists p, find_player pid (players s) = Some p).
    { destruct (find_player pid (players s)) as [p|] eqn:E; [eauto|].
      apply find_player_None in E. apply in_map_iff in Hpid as (q & Eq & Hq).
      pose proof (proj1 (List.Forall_forall _ _) E q Hq) as Hne. simpl in Hne.
      apply String.eqb_neq in Hne. congruence. }
    destruct Hf as [p Hf].
    destruct (pooch_entry_keeps_consistency pid r isBid v s p Hm Hf Hall)
      as (s1 & -> & Hm1 & Hall1 & Hid1 & Hname1).
    destruct (IH s1 Hm1 Hall1) as (s' & He & Hm' & Hall' & Hid' & Hname').
    { now rewrite Hid1. }
    exists s'. split; [exact He|]. split; [exact Hm'|]. split; [exact Hall'|].
    split; congruence.
Qed.

Lemma pooch_total_is_sum_of_rounds_witness :
  exists s',
    enter_all [("player_0", 1, true, 4); ("player_1", 1, true, 2);
               ("player_0", 1, false, 3); ("player_1", 1, false, 2);
               ("player_0", 1, true, 3)] pooch_example = Some s'
    /\ Forall (fun p => score p = sum_round_scores (roundData p)) (players s').
Proof.
  destruct (pooch_total_is_sum_of_rounds
              [("player_0", 1, true, 4); ("player_1", 1, true, 2);
               ("player_0", 1, false, 3); ("player_1", 1, false, 2);
               ("player_0", 1, true, 3)] pooch_example)
    as (s' & He & _ & Hall & _).
  - reflexivity.
  - unfold pooch_example. simpl players.
    repeat (constructor;
              [split; [reflexivity|apply map_Forall_empty]|]).
    constructor.
  - repeat (constructor; [simpl; intuition reflexivity|]). constructor.
  - exists s'. split; [exact He|].
    eapply List.Forall_impl; [|exact Hall]. now intros p [Hp _].
Defined.

(** The totals of that table: 13 for the first player and 12 for the
    second. *)
Lemma pooch_table_totals :
  exists s',
    enter_all [("player_0", 1, true, 4); ("player_1", 1, true, 2);
               ("player_0", 1, false, 3); ("player_1", 1, false, 2);
               ("player_0", 1, true, 3)] pooch_example = Some s'
    /\ map score (players s') = [13; 12].
Proof. eexists. split; vm_compute; reflexivity. Qed.

(** ** The rules of a Pooch round *)

(** X15: [validateBid] and [validateTricks] give the same range for a
    round, whatever the total of the bids and the number of players: from 0
    to the cards of the round, which are [11 - round] for the rounds 1 to
    10 and 10 for any other round. *)
Theorem pooch_round_limits (round totalBids playerCount : Z) :
  Games.validateBid round totalBids playerCount = Games.validateTricks round
  /\ fst (Games.validateTricks round) = 0
  /\ 1 <= snd (Games.validateTricks round) <= 10
  /\ (1 <= round <= 10 -> snd (Games.validateTricks round) = 11 - round)
  /\ (round < 1 \/ 10 < round -> snd (Games.validateTricks round) = 10).
Proof.
  destruct (maxCards_spec round) as [Hin Hout].
  unfold Games.validateBid, Games.validateTricks. simpl.
  repeat split; auto.
  - destruct (Z_le_gt_dec 1 round) as [H1|H1];
      [destruct (Z_le_gt_dec round 10) as [H2|H2]|];
      rewrite ?Hin, ?Hout by lia; lia.
  - destruct (Z_le_gt_dec 1 round) as [H1|H1];
      [destruct (Z_le_gt_dec round 10) as [H2|H2]|];
      rewrite ?Hin, ?Hout by lia; lia.
Qed.

Lemma pooch_round_limits_witness :
  snd (Games.validateTricks 4) = 11 - 4 /\ snd (Games.validateTricks 12) = 10.
Proof.
  pose proof (pooch_round_limits 4 0 0) as (_ & _ & _ & Hin & _).
  pose proof (pooch_round_limits 12 0 0) as (_ & _ & _ & _ & Hout).
  split; [apply Hin|apply Hout]; lia.
Defined.

(** X16: with bid and tricks between 0 and the cards of the round the
    score is between [-2 * cards] and [cards + 10]; a missed bid costs an
    even number of at least 2 points, the same for tricks over and under
    the bid, and a made bid scores at least 10. *)
Theorem calculateScore_bounds (bid tricks cards : Z) :
  0 <= bid <= cards ->
  0 <= tricks <= cards ->
  -2 * cards <= Games.calculateScore bid tricks <= cards + 10
  /\ (bid <> tricks ->
      Games.calculateScore bid tricks <= -2
      /\ Z.even (Games.calculateScore bid tricks) = true
      /\ Games.calculateScore bid tricks = Games.calculateScore tricks bid)
  /\ (bid = tricks -> 10 <= Games.calculateScore bid tricks).
Proof.
  intros Hb Ht. unfold Games.calculateScore.
  destruct (Z.eqb_spec bid tricks) as [E|E].
  - split; [lia|]. split; [congruence|]. intros _. lia.
  - split; [lia|]. split; [|congruence]. intros _.
    split; [lia|]. split.
    + rewrite Z.even_mul. simpl. apply orb_true_r.
    + destruct (Z.eqb_spec tricks bid); [congruence|]. lia.
Qed.

Lemma calculateScore_bounds_witness :
  -2 * 10 <= Games.calculateScore 7 10 <= 10 + 10.
Proof.
  apply (calculateScore_bounds 7 10 10); lia.
Defined.

(** ** A state installed from the URL *)

Lemma fold_bump_counter_url_players names k :
  fold_left bump_counter (imap (fun i => url_player (k + i)) names) (Z.of_nat k)
  = Z.of_nat (k + length names).
Proof.
  revert k. induction names as [|n names IH]; intros k; simpl.
  - f_equal. lia.
  - rewrite (imap_ext _ (fun i => url_player (S k + i)))
      by (intros i x _; simpl; f_equal; lia).
    replace (bump_counter (Z.of_nat k) (url_player (k + 0) n)) with (Z.of_nat (S k)).
    + rewrite IH. f_equal. lia.
    + unfold bump_counter, url_player. simpl id.
      rewrite id_number_generated.
      destruct (Z.geb_spec (Z.of_nat (k + 0)) (Z.of_nat k)); lia.
Qed.

Lemma map_id_url_players names k :
  map id (imap (fun i => url_player (k + i)) names)
  = map (fun i => "player_" +:+ JS.string_of_number (Z.of_nat i)) (seq k (length names)).
Proof.
  revert k. induction names as [|n names IH]; intros k; simpl; [reflexivity|].
  f_equal.
  - now rewrite Nat.add_0_r.
  - rewrite (imap_ext _ (fun i => url_player (S k + i)))
      by (intros i x _; simpl; f_equal; lia).
    apply IH.
Qed.

(** The players of a decoded snapshot are numbered from 0. *)
Lemma url_players_shape search st :
  deserializeFromURL search = Some st ->
  exists names, players st = imap url_player names.
Proof.
  intros H.
  destruct (deserializeFromURL_Some search st H) as (_ & _ & _ & _ & _ & _ & _ & _ & _ & _ & Hp).
  destruct (JS.truthy_string _) in Hp; [eauto|]. now exists [].
Qed.

Lemma or_string_truthy x d :
  JS.truthy_string d = true -> JS.truthy_string (JS.or_string x d) = true.
Proof.
  intros Hd. unfold JS.or_string. destruct x as [v|]; [|exact Hd].
  destruct (JS.truthy_string v) eqn:E; [exact E|exact Hd].
Qed.

(** With a URL state [init] installs the decoded snapshot as it is. *)
Lemma init_url_state search saved st :
  deserializeFromURL search = Some st -> state (init search saved) = st.
Proof.
  intros H.
  destruct (deserializeFromURL_Some search st H)
    as (_ & Hm & _ & _ & _ & _ & _ & _ & Hr & _ & _).
  unfold init. rewrite H. destruct st as [ps m sts r rs]. simpl in *.
  rewrite assign_all_settings. subst r.
  replace (JS.truthy_string m) with true; [reflexivity|].
  symmetry. rewrite Hm. now apply or_string_truthy.
Qed.

Lemma init_url_counter search saved st :
  deserializeFromURL search = Some st ->
  playerIdCounter (init search saved) = Z.of_nat (length (players st)).
Proof.
  intros H. destruct (url_players_shape search st H) as [names Hnames].
  unfold init. rewrite H. simpl. rewrite Hnames, length_imap.
  exact (fold_bump_counter_url_players names 0).
Qed.

Lemma url_players_ids search st :
  deserializeFromURL search = Some st ->
  map id (players st)
  = map (fun i => "player_" +:+ JS.string_of_number (Z.of_nat i))
        (seq 0 (length (players st))).
Proof.
  intros H. destruct (url_players_shape search st H) as [names Hnames].
  rewrite Hnames, length_imap. apply (map_id_url_players names 0).
Qed.

Lemma init_url_fresh_ids search saved st :
  deserializeFromURL search = Some st -> fresh_ids (init search saved).
Proof.
  intros H.
  pose proof (init_url_state search saved st H) as Hstate.
  pose proof (init_url_counter search saved st H) as Hcounter.
  pose proof (url_players_ids search st H) as Hids.
  unfold fresh_ids. rewrite Hstate, Hcounter, Hids. split.
  - apply Finite.Injective_map_NoDup; [|apply seq_NoDup].
    intros i j E.
    assert (Some (Z.of_nat i) = Some (Z.of_nat j)) as [= Eij]
      by (rewrite <- !id_number_generated; now rewrite E).
    lia.
  - apply List.Forall_forall. intros q Hq k Hk.
    apply (in_map id) in Hq. rewrite Hids in Hq.
    apply in_map_iff in Hq as (i & Ei & Hi). apply in_seq in Hi.
    rewrite <- Ei, id_number_generated in Hk. injection Hk as <-. lia.
Qed.

(** X17: when the URL holds a state, [init] installs the decoded snapshot
    as it is, whatever the storage holds; its players have the ids
    [player_0], [player_1], ... in order, the id counter ends at the number
    of players, and the next player added gets the id after the last. *)
Theorem init_installs_url_state (search : string) (saved : option Snapshot) (st : GameState) :
  deserializeFromURL search = Some st ->
  state (init search saved) = st
  /\ playerIdCounter (init search saved) = Z.of_nat (length (players st))
  /\ map id (players st)
     = map (fun i => "player_" +:+ JS.string_of_number (Z.of_nat i))
           (seq 0 (length (players st)))
  /\ (forall name,
        id (snd (addPlayer name (init search saved)))
        = "player_" +:+ JS.string_of_number (Z.of_nat (length (players st))))
  /\ fresh_ids (init search saved).
Proof.
  intros H.
  pose proof (init_url_counter search saved st H) as Hcounter.
  split; [now apply init_url_state|]. split; [exact Hcounter|].
  split; [now apply (url_players_ids search)|]. split.
  - intros name. now rewrite addPlayer_id, Hcounter.
  - now apply (init_url_fresh_ids search saved st).
Qed.

Lemma init_installs_url_state_witness :
  map id (players (state (init "?players=Ann,Bob,Cy&game=pooch" None)))
  = ["player_0"; "player_1"; "player_2"]
  /\ playerIdCounter (init "?players=Ann,Bob,Cy&game=pooch" None) = 3.
Proof.
  destruct (init_installs_url_state "?players=Ann,Bob,Cy&game=pooch" None _ eq_refl)
    as (Hs & Hc & Hi & _).
  split.
  - rewrite Hs. exact Hi.
  - exact Hc.
Defined.

(** ** A shared link *)

Lemma not_false_string_of_boolean b :
  not_false (Some (JS.string_of_boolean b)) = b.
Proof. now destruct b. Qed.

(** The parameters of the query string [serializeToURL] writes, read back. *)
Lemma serializeToURL_get gs :
  let params := URLSearchParams.new (serializeToURL gs) in
  URLSearchParams.get "game" params = Some (gameMode gs)
  /\ URLSearchParams.get "theme" params = Some (colorTheme (settings gs))
  /\ URLSearchParams.get "showRounds" params
     = Some (JS.string_of_boolean (showRounds (settings gs)))
  /\ URLSearchParams.get "numRounds" params
     = Some (JS.string_of_value (numberOfRounds (settings gs)))
  /\ URLSearchParams.get "showBids" params
     = Some (JS.string_of_boolean (showBids (settings gs)))
  /\ URLSearchParams.get "showTricks" params
     = Some (JS.string_of_boolean (showTricks (settings gs)))
  /\ URLSearchParams.get "showDeal" params
     = Some (JS.string_of_boolean (showDeal (settings gs))).
Proof.
  cbv zeta. rewrite serializeToURL_params, URLSearchParamsFacts.new_toString.
  destruct (0 <? length (players gs))%nat; repeat split.
Qed.

(** [parseInt] reads back the integer [String] printed, and nothing from
    ["NaN"] and ["null"]. *)
Lemma parseInt_string_of_value x :
  JS.parseInt (JS.string_of_value x)
  = match x with
    | JS.Num n => Some n
    | JS.NaN | JS.Null => None
    end.
Proof. destruct x as [n| |]; [apply parseInt_string_of_number|reflexivity|reflexivity]. Qed.

(** X18: a page opened with the query string of a state has that state's
    four boolean settings, its game mode (["custom"] for the empty mode), its
    theme (["purple"] for the empty theme) and its number of rounds when
    that is an integer other than 0; the number of rounds is 10 when the
    state has 0, [NaN] (the settings were saved with the field emptied) or
    [null] there.  The storage is not read. *)
Theorem shared_link_restores_configuration (gs : GameState) (saved : option Snapshot) :
  let w := init (String "?" (serializeToURL gs)) saved in
  showRounds (settings (state w)) = showRounds (settings gs)
  /\ showBids (settings (state w)) = showBids (settings gs)
  /\ showTricks (settings (state w)) = showTricks (settings gs)
  /\ showDeal (settings (state w)) = showDeal (settings gs)
  /\ gameMode (state w) = (if String.eqb (gameMode gs) "" then "custom" else gameMode gs)
  /\ colorTheme (settings (state w))
     = (if String.eqb (colorTheme (settings gs)) "" then "purple"
        else colorTheme (settings gs))
  /\ numberOfRounds (settings (state w))
     = JS.Num (match numberOfRounds (settings gs) with
               | JS.Num n => if n =? 0 then 10 else n
               | JS.NaN | JS.Null => 10
               end)
  /\ (gameMode gs <> "" -> colorTheme (settings gs) <> "" ->
      (exists n, numberOfRounds (settings gs) = JS.Num n /\ n <> 0) ->
      gameMode (state w) = gameMode gs /\ settings (state w) = settings gs).
Proof.
  cbv zeta.
  destruct (serializeToURL_not_null gs) as [st Hst].
  rewrite <- question_mark_dropped in Hst.
  rewrite (init_url_state _ saved st Hst).
  rewrite question_mark_dropped in Hst.
  destruct (deserializeFromURL_Some _ st Hst)
    as (_ & Hm & Hth & HsR & HnR & HsB & HsT & HsD & _).
  destruct (serializeToURL_get gs) as (Gm & Gth & GsR & GnR & GsB & GsT & GsD).
  rewrite Gm in Hm. rewrite Gth in Hth. rewrite GsR in HsR. rewrite GnR in HnR.
  rewrite GsB in HsB. rewrite GsT in HsT. rewrite GsD in HsD.
  rewrite not_false_string_of_boolean in HsR, HsB, HsT, HsD.
  simpl in HnR. rewrite parseInt_string_of_value in HnR.
  unfold JS.or_string, JS.truthy_string in Hm, Hth.
  unfold JS.or_number, JS.truthy_number in HnR.
  assert (Em : gameMode st = if String.eqb (gameMode gs) "" then "custom" else gameMode gs).
  { rewrite Hm. now destruct (String.eqb (gameMode gs) ""). }
  assert (Eth : colorTheme (settings st)
                = if String.eqb (colorTheme (settings gs)) "" then "purple"
                  else colorTheme (settings gs)).
  { rewrite Hth. now destruct (String.eqb (colorTheme (settings gs)) ""). }
  assert (En : numberOfRounds (settings st)
               = JS.Num (match numberOfRounds (settings gs) with
                         | JS.Num n => if n =? 0 then 10 else n
                         | JS.NaN | JS.Null => 10
                         end)).
  { rewrite HnR. destruct (numberOfRounds (settings gs)) as [n| |]; try reflexivity.
    now destruct (n =? 0). }
  do 7 (split; [assumption|]).
  intros Hmode Htheme (n & Hn & Hn0). split.
  - rewrite Em. now destruct (String.eqb_spec (gameMode gs) "").
  - rewrite Hn in En.
    destruct (settings st) as [a b c d e f], (settings gs) as [a' b' c' d' e' f'].
    simpl in *.
    destruct (String.eqb_spec a' ""); [congruence|].
    destruct (Z.eqb_spec n 0); [congruence|]. congruence.
Qed.

(** The link of a cribbage game, and the link of a page whose settings were
    saved with the number of rounds emptied. *)
Lemma shared_link_restores_configuration_witness :
  (gameMode (state (init (String "?" (serializeToURL cribbage_example)) None)) = "cribbage"
   /\ settings (state (init (String "?" (serializeToURL cribbage_example)) None))
      = default_settings)
  /\ numberOfRounds (settings emptied_rounds_example) = JS.NaN
  /\ numberOfRounds
       (settings (state (init (String "?" (serializeToURL emptied_rounds_example)) None)))
     = JS.Num 10.
Proof.
  split; [|split].
  - apply (shared_link_restores_configuration cribbage_example None);
      [discriminate|discriminate|].
    exists 10. split; [reflexivity|discriminate].
  - reflexivity.
  - exact (proj1 (proj2 (proj2 (proj2 (proj2 (proj2 (proj2
             (shared_link_restores_configuration emptied_rounds_example None)))))))).
Defined.

(** X21: the query string [serializeToURL] writes holds, in this order,
    [game], [players] (the names joined by commas, only when there is a
    player), [theme], [showRounds], [numRounds] (the text of the number, or
    [NaN] or [null]), [showBids], [showTricks] and [showDeal], and each
    value is read back as it was written, whatever characters it has; the
    string is never empty. *)
Theorem serializeToURL_parameters (gs : GameState) :
  let written :=
    ("game", gameMode gs)
      :: (if (0 <? length (players gs))%nat
          then [("players", JS.join "," (map name (players gs)))] else [])
      ++ [("theme", colorTheme (settings gs));
          ("showRounds", JS.string_of_boolean (showRounds (settings gs)));
          ("numRounds", JS.string_of_value (numberOfRounds (settings gs)));
          ("showBids", JS.string_of_boolean (showBids (settings gs)));
          ("showTricks", JS.string_of_boolean (showTricks (settings gs)));
          ("showDeal", JS.string_of_boolean (showDeal (settings gs)))] in
  URLSearchParams.new (serializeToURL gs) = written
  /\ URLSearchParams.new (String "?" (serializeToURL gs)) = written
  /\ serializeToURL gs <> ""
  /\ (URLSearchParams.get "players" (URLSearchParams.new (serializeToURL gs)) = None
      <-> players gs = []).
Proof.
  cbv zeta. rewrite serializeToURL_params.
  rewrite URLSearchParamsFacts.new_toString, URLSearchParamsFacts.new_question_toString.
  split; [reflexivity|]. split; [reflexivity|]. split.
  - intros E. apply (f_equal (fun q => String.eqb q "")) in E.
    change (String.eqb "" "") with true in E.
    apply URLSearchParamsFacts.toString_empty in E. discriminate.
  - destruct (players gs) as [|p ps]; simpl; split; intros; congruence.
Qed.

(** ** The page: between 2 and 10 players *)

(** The handler of the Pooch table changes no id and no name. *)
Lemma handlePlayerContainerChange_ids playerId round isBid value s s' :
  handlePlayerContainerChange playerId round isBid value s = Some s' ->
  map id (players s') = map id (players s).
Proof.
  unfold handlePlayerContainerChange.
  destruct (find_player playerId (players s)) as [p|]; [|discriminate].
  match goal with
  | |- context [match rd_bid ?rd with _ => _ end] => destruct (rd_bid rd), (rd_tricks rd)
  end;
    try destruct (String.eqb (gameMode s) "pooch"); intros [= <-]; simpl;
    now rewrite map_id_modify_player.
Qed.

Lemma fresh_ids_same_ids w s' :
  map id (players s') = map id (players (state w)) ->
  fresh_ids w -> fresh_ids (mkWorld s' (playerIdCounter w)).
Proof.
  unfold fresh_ids. simpl. intros E [Hnd Hlt]. split; [now rewrite E|].
  apply List.Forall_forall. intros q Hq k Hk.
  apply (in_map id) in Hq. rewrite E in Hq.
  apply in_map_iff in Hq as (r & Er & Hr).
  rewrite <- Er in Hk. exact (proj1 (List.Forall_forall _ _) Hlt r Hr k Hk).
Qed.

Lemma after_method_rendered notified w pg :
  fresh_ids w ->
  (notified = false ->
   length (players (state w)) = length (players (state (world pg)))) ->
  addPlayerDisabled pg = updateAddPlayerButton (state (world pg)) ->
  page_rendered (after_method notified w pg).
Proof.
  intros Hw Hlen Hflag. unfold after_method, page_rendered.
  destruct notified; simpl; split; auto.
  rewrite Hflag. unfold updateAddPlayerButton. now rewrite Hlen.
Qed.

Lemma handle_keeps_rendered ev pg :
  page_rendered pg -> page_rendered (handle ev pg).
Proof.
  intros Hpg. pose proof Hpg as [Hids Hflag].
  pose proof (fun op H => step_keeps_fresh_ids op (world pg) H Hids) as Hstep.
  destruct ev as [|c|mode c|pid delta|pid c|pid newName|pid r isBid v
                |theme sr nr sb st sd];
    unfold handle; cbv beta iota zeta.
  - destruct (addPlayerDisabled pg) eqn:E; [exact Hpg|]. clear E.
    apply after_method_rendered; [exact (Hstep (OpAddPlayer None) I)|discriminate|exact (proj2 Hpg)].
  - destruct c; [|exact Hpg].
    apply after_method_rendered; [exact (Hstep OpResetGame I)|discriminate|exact (proj2 Hpg)].
  - destruct c; [|exact Hpg].
    apply after_method_rendered; [exact (Hstep (OpSetGameMode mode) I)|discriminate|exact (proj2 Hpg)].
  - apply after_method_rendered; [exact (Hstep (OpUpdatePlayerScore pid delta) I)| |exact (proj2 Hpg)].
    intros _. simpl. apply length_modify_player.
  - destruct (2 <? length (players (state (world pg))))%nat; [|exact Hpg].
    destruct c; [|exact Hpg].
    apply after_method_rendered; [exact (Hstep (OpRemovePlayer pid) I)|discriminate|exact (proj2 Hpg)].
  - apply after_method_rendered;
      [exact (Hstep (OpUpdatePlayer pid (mkPlayerUpdates None (Some newName) None None None))
                eq_refl)| |exact (proj2 Hpg)].
    intros _. simpl. apply length_modify_player.
  - destruct (String.eqb (gameMode (state (world pg))) "pooch"); [|exact Hpg].
    destruct (handlePlayerContainerChange pid r isBid v (state (world pg))) as [s'|] eqn:E;
      [|exact Hpg].
    apply after_method_rendered; [|discriminate|exact (proj2 Hpg)].
    apply fresh_ids_same_ids; [|exact Hids].
    now apply (handlePlayerContainerChange_ids pid r isBid v).
  - apply after_method_rendered;
      [exact (Hstep (OpUpdateSettings
                       (all_settings (form_settings theme sr nr sb st sd))) I)
      |discriminate|exact (proj2 Hpg)].
Qed.

Lemma handle_player_count ev pg (lo hi : nat) :
  page_rendered pg ->
  (lo <= 2)%nat -> (10 <= hi)%nat ->
  (lo <= player_count pg <= hi)%nat ->
  (lo <= player_count (handle ev pg) <= hi)%nat.
Proof.
  unfold player_count. intros [[Hnd _] Hflag] Hlo Hhi Hlen.
  assert (Hafter : forall notified w,
            length (players (state (world (after_method notified w pg))))
            = length (players (state w))).
  { intros [] w; reflexivity. }
  destruct ev as [|c|mode c|pid delta|pid c|pid newName|pid r isBid v
                |theme sr nr sb st sd]; simpl.
  - destruct (addPlayerDisabled pg) eqn:E; [exact Hlen|].
    symmetry in Hflag. unfold updateAddPlayerButton in Hflag.
    apply Nat.leb_gt in Hflag.
    simpl. rewrite length_app. simpl. lia.
  - destruct c; [|exact Hlen]. simpl. now rewrite length_map.
  - destruct c; [|exact Hlen]. simpl. now rewrite length_map.
  - rewrite Hafter. simpl. now rewrite length_modify_player.
  - destruct (Nat.ltb_spec 2 (length (players (state (world pg))))) as [H2|H2];
      [|exact Hlen].
    destruct c; [|exact Hlen]. simpl.
    pose proof (filter_other_ids_sublist pid (players (state (world pg)))) as Hsub.
    apply sublist_length in Hsub.
    destruct (find_player pid (players (state (world pg)))) as [p|] eqn:Hf.
    + pose proof (filter_unique_id pid _ p Hnd Hf). lia.
    + rewrite filter_absent by exact Hf. lia.
  - rewrite Hafter. simpl. now rewrite length_modify_player.
  - destruct (String.eqb (gameMode (state (world pg))) "pooch"); [|exact Hlen].
    destruct (handlePlayerContainerChange pid r isBid v (state (world pg))) as [s'|] eqn:E;
      [|exact Hlen].
    simpl. apply handlePlayerContainerChange_ids in E.
    apply (f_equal (@length string)) in E. rewrite !length_map in E. now rewrite E.
  - simpl. exact Hlen.
Qed.

Lemma handle_all_player_count evs pg (lo hi : nat) :
  page_rendered pg ->
  (lo <= 2)%nat -> (10 <= hi)%nat ->
  (lo <= player_count pg <= hi)%nat ->
  page_rendered (handle_all evs pg)
  /\ (lo <= player_count (handle_all evs pg) <= hi)%nat.
Proof.
  intros Hpg Hlo Hhi. unfold handle_all. revert pg Hpg.
  induction evs as [|ev evs IH]; intros pg Hpg Hlen; simpl; [auto|].
  apply IH.
  - now apply handle_keeps_rendered.
  - now apply handle_player_count.
Qed.

Lemma init_default_page search :
  deserializeFromURL search = None ->
  page_rendered (init_page search None) /\ player_count (init_page search None) = 2%nat.
Proof.
  intros H. unfold init_page, init, player_count. rewrite H. split; [|reflexivity].
  split; [|reflexivity].
  apply (step_keeps_fresh_ids (OpAddPlayer (Some "Player 2"))
           (step (OpAddPlayer (Some "Player 1")) initial_world) I).
  apply (step_keeps_fresh_ids (OpAddPlayer (Some "Player 1")) initial_world I).
  apply initial_world_fresh_ids.
Qed.

(** X19: on the page the number of players stays between 2 and 10 under
    every sequence of events when [init] starts from the two default
    players; from any rendered page with [n] players, and from a URL state
    of [n] players, it stays between [min(2, n)] and [max(10, n)]: the
    add-player button is disabled from 10 players on and a delete is
    refused at 2. *)
Theorem page_keeps_two_to_ten_players (evs : list UIEvent) :
  (forall pg,
      page_rendered pg ->
      (Nat.min 2 (player_count pg) <= player_count (handle_all evs pg)
       <= Nat.max 10 (player_count pg))%nat)
  /\ (forall search,
      deserializeFromURL search = None ->
      (2 <= player_count (handle_all evs (init_page search None)) <= 10)%nat)
  /\ (forall search saved st,
      deserializeFromURL search = Some st ->
      (Nat.min 2 (length (players st))
       <= player_count (handle_all evs (init_page search saved))
       <= Nat.max 10 (length (players st)))%nat).
Proof.
  split; [|split].
  - intros pg Hpg. apply handle_all_player_count; [exact Hpg|lia|lia|lia].
  - intros search H. destruct (init_default_page search H) as [Hpg Hn].
    apply handle_all_player_count; [exact Hpg|lia|lia|lia].
  - intros search saved st H.
    assert (Hpg : page_rendered (init_page search saved)).
    { split; [|reflexivity]. now apply (init_url_fresh_ids search saved st). }
    assert (Hn : player_count (init_page search saved) = length (players st)).
    { unfold player_count, init_page. simpl. now rewrite (init_url_state search saved st H). }
    rewrite <- Hn. apply handle_all_player_count; [exact Hpg|lia|lia|lia].
Qed.

Lemma page_keeps_two_to_ten_players_witness :
  (2 <= player_count
          (handle_all [ClickDelete "player_0" true; ClickAddPlayer; ClickAddPlayer;
                       ClickDelete "player_1" true; ClickDelete "player_2" true;
                       ClickDelete "player_3" true]
             (init_page "" None)) <= 10)%nat.
Proof.
  apply (proj1 (proj2 (page_keeps_two_to_ten_players _)) "" eq_refl).
Defined.

(** ** [script.js]: the two teams *)

Section Teams.

Import TeamScoreboard.

Lemma updateScore_get team delta s :
  get team (updateScore team delta s) = Z.max 0 (get team s + delta).
Proof.
  unfold updateScore. destruct team; simpl;
    match goal with |- context [?x <? 0] => destruct (Z.ltb_spec x 0) end;
    simpl; lia.
Qed.

Lemma updateScore_other team other delta s :
  other <> team -> get other (updateScore team delta s) = get other s.
Proof.
  unfold updateScore. destruct team, other; try congruence; intros _; simpl;
    match goal with |- context [?x <? 0] => destruct (Z.ltb_spec x 0) end;
    reflexivity.
Qed.

Lemma act_keeps_nonneg a s :
  0 <= scoreA s -> 0 <= scoreB s ->
  0 <= scoreA (act a s) /\ 0 <= scoreB (act a s).
Proof.
  intros HA HB. destruct a as [team delta|]; simpl; [|lia].
  pose proof (updateScore_get team delta s) as Hg.
  destruct team; simpl in Hg.
  - rewrite Hg. split; [lia|].
    change (0 <= get TeamB (updateScore TeamA delta s)).
    now rewrite updateScore_other by discriminate.
  - rewrite Hg. split; [|lia].
    change (0 <= get TeamA (updateScore TeamB delta s)).
    now rewrite updateScore_other by discriminate.
Qed.

(** X20: on the scoreboard of two teams no score is ever negative over any
    sequence of button presses; [updateScore] stores
    [max(0, score + delta)] for its team and leaves the other team's score,
    and a reset at the end gives 0 to 0. *)
Theorem team_scores_never_negative (actions : list Action) :
  0 <= scoreA (play actions initial_scores)
  /\ 0 <= scoreB (play actions initial_scores)
  /\ (forall team delta s,
        get team (updateScore team delta s) = Z.max 0 (get team s + delta))
  /\ (forall team other delta s,
        other <> team -> get other (updateScore team delta s) = get other s)
  /\ play (actions ++ [Reset]) initial_scores = initial_scores.
Proof.
  assert (H : forall s, 0 <= scoreA s -> 0 <= scoreB s ->
                        0 <= scoreA (play actions s) /\ 0 <= scoreB (play actions s)).
  { unfold play. induction actions as [|a actions IH]; intros s HA HB; simpl; [auto|].
    destruct (act_keeps_nonneg a s HA HB). now apply IH. }
  destruct (H initial_scores) as [HA HB]; simpl; try lia.
  repeat split; auto using updateScore_get, updateScore_other.
  unfold play. now rewrite fold_left_app.
Qed.

Lemma team_scores_never_negative_witness :
  get TeamB (updateScore TeamA (-4) (mkScores 3 8)) = get TeamB (mkScores 3 8).
Proof.
  apply (proj1 (proj2 (proj2 (proj2 (team_scores_never_negative []))))). discriminate.
Defined.

End Teams.
